(** * Flash Prompter: playback clock, mode machine and settings store

    A shallow embedding of [src/App.tsx].  The React component is read as a
    state record (the [useState] cells and the [useRef] cells together), its
    event handlers as functions on that record, and the playback effect
    (the [useEffect] with dependencies [isPlaying, totalSeconds]) as a
    function applied when a handler's update is committed.

    JavaScript numbers are modelled by [num]: exact rationals extended with
    [NaN] and the two infinities.  Rounding and the sign of zero are not
    represented: where the code rounds a quotient or a sum to binary64, the
    model keeps the exact value.  The theorems below therefore state what
    rounding preserves: orders and ranges, equalities whose arithmetic is
    exact in binary64 (such as [p + 0 / T]), and case splits on the candidate
    that a frame computes; they do not predict at which frame a candidate
    first reaches 1. *)

From Stdlib Require Import QArith Qminmax Lqa ZArith NArith List Bool Lia.
Import ListNotations.

Set Implicit Arguments.

(* ------------------------------------------------------------------ *)
(** ** JavaScript numbers *)

Module JsNum.

Inductive num : Type :=
| NaN
| NegInf
| Fin (q : Q)
| PosInf.

(** [a + b] *)
Definition add (a b : num) : num :=
  match a, b with
  | NaN, _ | _, NaN => NaN
  | PosInf, NegInf | NegInf, PosInf => NaN
  | PosInf, _ | _, PosInf => PosInf
  | NegInf, _ | _, NegInf => NegInf
  | Fin x, Fin y => Fin (x + y)
  end.

(** [- a] *)
Definition neg (a : num) : num :=
  match a with
  | NaN => NaN
  | NegInf => PosInf
  | Fin x => Fin (- x)
  | PosInf => NegInf
  end.

(** [a - b] *)
Definition sub (a b : num) : num := add a (neg b).

Definition Qneg_bool (x : Q) : bool := negb (Qle_bool 0 x).

(** [a / b]; a zero divisor counts as [+0]. *)
Definition div (a b : num) : num :=
  match a, b with
  | NaN, _ | _, NaN => NaN
  | PosInf, Fin y => if Qneg_bool y then NegInf else PosInf
  | NegInf, Fin y => if Qneg_bool y then PosInf else NegInf
  | Fin _, PosInf | Fin _, NegInf => Fin 0
  | Fin x, Fin y =>
      if Qeq_bool y 0 then
        if Qeq_bool x 0 then NaN
        else if Qneg_bool x then NegInf else PosInf
      else Fin (x / y)
  | _, _ => NaN
  end.

(** [a >= b] *)
Definition ge (a b : num) : bool :=
  match a, b with
  | NaN, _ | _, NaN => false
  | PosInf, _ => true
  | _, NegInf => true
  | NegInf, _ => false
  | Fin _, PosInf => false
  | Fin x, Fin y => Qle_bool y x
  end.

(** [a < b] *)
Definition lt (a b : num) : bool :=
  match a, b with
  | NaN, _ | _, NaN => false
  | _, _ => negb (ge a b)
  end.

(** [Math.max(a, b)] *)
Definition max (a b : num) : num :=
  match a, b with
  | NaN, _ | _, NaN => NaN
  | _, _ => if ge a b then a else b
  end.

(** [Math.min(a, b)] *)
Definition min (a b : num) : num :=
  match a, b with
  | NaN, _ | _, NaN => NaN
  | _, _ => if ge a b then b else a
  end.

(** [Object.is(a, b)], the comparison React applies to effect
    dependencies. *)
Definition same (a b : num) : bool :=
  match a, b with
  | NaN, NaN | NegInf, NegInf | PosInf, PosInf => true
  | Fin x, Fin y => Qeq_bool x y
  | _, _ => false
  end.

(** [n || 1] for a number [n]: zero and [NaN] are falsy. *)
Definition or_one (a : num) : num :=
  match a with
  | NaN => Fin 1
  | Fin x => if Qeq_bool x 0 then Fin 1 else a
  | _ => a
  end.

(** The number is a rational inside [[lo, hi]]. *)
Definition within (lo hi : Q) (a : num) : Prop :=
  match a with
  | Fin x => lo <= x /\ x <= hi
  | _ => False
  end.

Definition withinb (lo hi : Q) (a : num) : bool :=
  match a with
  | Fin x => Qle_bool lo x && Qle_bool x hi
  | _ => false
  end.

End JsNum.
Import JsNum.

(* ------------------------------------------------------------------ *)
(** ** Script text and its word count *)

(** A JavaScript string: its UTF-16 code units. *)
Definition jsstring := list N.

(** The class [\s] of a regular expression, which is also what
    [String.prototype.trim] strips. *)
Definition is_space (c : N) : bool :=
  (N.leb 9 c && N.leb c 13) || N.eqb c 32 || N.eqb c 160 || N.eqb c 5760
  || (N.leb 8192 c && N.leb c 8202) || N.eqb c 8232 || N.eqb c 8233
  || N.eqb c 8239 || N.eqb c 8287 || N.eqb c 12288 || N.eqb c 65279.

Fixpoint trimStart (s : jsstring) : jsstring :=
  match s with
  | [] => []
  | c :: r => if is_space c then trimStart r else s
  end.

Definition trimEnd (s : jsstring) : jsstring := rev (trimStart (rev s)).

(** [s.trim()] *)
Definition trim (s : jsstring) : jsstring := trimEnd (trimStart s).

(** [s.split(/\s+/)]: [cur] is the piece being read (reversed), [sep] says
    that the previous code unit belonged to a separator. *)
Fixpoint split_go (s : jsstring) (cur : jsstring) (sep : bool)
  : list jsstring :=
  match s with
  | [] => [rev cur]
  | c :: r =>
      if is_space c then
        if sep then split_go r cur true
        else rev cur :: split_go r [] true
      else split_go r (c :: cur) false
  end.

Definition split_ws (s : jsstring) : list jsstring := split_go s [] false.

(** [Boolean(piece)] for a string: the empty string is falsy. *)
Definition truthy (piece : jsstring) : bool :=
  match piece with [] => false | _ => true end.

(** [content.trim().split(/\s+/).filter(Boolean)] *)
Definition words (content : jsstring) : list jsstring :=
  filter truthy (split_ws (trim content)).

Definition DEFAULT_TEXT : jsstring :=
  [27426; 36814; 20351; 29992; 32; 70; 108; 97; 115; 104; 32; 80; 114; 111;
   109; 112; 116; 101; 114; 10; 10; 36825; 26159; 19968; 27573; 40664; 35748;
   25552; 35789; 20869; 23481; 12290; 10; 30452; 25509; 24320; 22987; 24405;
   21046; 65292; 25353; 31354; 26684; 25773; 25918; 47; 26242; 20572; 12290;
   10; 10; 31069; 20320; 24405; 21046; 39034; 21033; 12290]%N.

(* ------------------------------------------------------------------ *)
(** ** Settings *)

Definition WORDS_PER_MINUTE : num := Fin 60.
Definition LINE_HEIGHT : num := Fin 48.
Definition FONT_SIZE : num := Fin 34.

Inductive Mode : Type := Input | Prompter | SettingsMode.

Definition Mode_eqb (a b : Mode) : bool :=
  match a, b with
  | Input, Input | Prompter, Prompter | SettingsMode, SettingsMode => true
  | _, _ => false
  end.

Record Settings : Type := mkSettings {
  wordsPerMinute : num;
  fontSize : num;
  lineHeight : num;
  autoStart : bool
}.

Definition DEFAULT_SETTINGS : Settings :=
  {| wordsPerMinute := WORDS_PER_MINUTE;
     fontSize := FONT_SIZE;
     lineHeight := LINE_HEIGHT;
     autoStart := false |}.

(** [Partial<Settings>].  [V] is what a numeric field holds: a [num] for the
    objects the sliders build, any parsed JSON value for the stored record.
    [None] is a field that is absent (or nullish, which [??] treats the
    same). *)
Record PartialSettings (V : Type) : Type := mkPartial {
  p_wordsPerMinute : option V;
  p_fontSize : option V;
  p_lineHeight : option V;
  p_autoStart : option bool
}.

Definition empty_partial (V : Type) : PartialSettings V :=
  {| p_wordsPerMinute := None; p_fontSize := None;
     p_lineHeight := None; p_autoStart := None |}.

(** [Boolean(field)] for a field typed [boolean | undefined]. *)
Definition to_boolean (field : option bool) : bool :=
  match field with Some b => b | None => false end.

(** One field of an object spread: a field the later object has wins. *)
Definition spread (A : Type) (later : option A) (earlier : A) : A :=
  match later with Some x => x | None => earlier end.

(** [{ ...prev, ...next }] *)
Definition merge (prev : Settings) (next : PartialSettings num) : Settings :=
  {| wordsPerMinute := spread (p_wordsPerMinute next) (wordsPerMinute prev);
     fontSize := spread (p_fontSize next) (fontSize prev);
     lineHeight := spread (p_lineHeight next) (lineHeight prev);
     autoStart := spread (p_autoStart next) (autoStart prev) |}.

(** [clamp] of the settings effect: [Math.min(max, Math.max(min, value))]. *)
Definition clamp (value lo hi : num) : num := min hi (max lo value).

(** The outcome of a call that may throw or reject. *)
Inductive outcome (A : Type) : Type :=
| Returned (a : A)
| Thrown.
Arguments Thrown {A}.

Section Coercion.

(** Parsed JSON values and the global conversion [Number] applied to them. *)
Variable JsValue : Type.
Variable Number : JsValue -> num.

(** [Number(field ?? dflt)] *)
Definition number_or (field : option JsValue) (dflt : num) : num :=
  match field with Some v => Number v | None => dflt end.

Definition normalizeSettings (value : PartialSettings JsValue) : Settings :=
  {| wordsPerMinute :=
       clamp (number_or (p_wordsPerMinute value) WORDS_PER_MINUTE)
             (Fin 20) (Fin 240);
     fontSize :=
       clamp (number_or (p_fontSize value) FONT_SIZE) (Fin 20) (Fin 64);
     lineHeight :=
       clamp (number_or (p_lineHeight value) LINE_HEIGHT) (Fin 28) (Fin 96);
     autoStart := to_boolean (p_autoStart value) |}.

(** [load]: [parsed] is the outcome of reading and parsing the stored record
    ([Thrown] when [localStorage.getItem] or [JSON.parse] throws, the empty
    record when nothing is stored), [live] the outcome of [isEnabled()]. *)
Definition load (parsed : outcome (PartialSettings JsValue))
                (live : outcome bool) : Settings :=
  let stored :=
    match parsed with Returned r => r | Thrown => empty_partial JsValue end in
  let autoStart :=
    match live with Returned b => b | Thrown => false end in
  normalizeSettings
    {| p_wordsPerMinute := p_wordsPerMinute stored;
       p_fontSize := p_fontSize stored;
       p_lineHeight := p_lineHeight stored;
       p_autoStart := Some autoStart |}.

End Coercion.

(** [updateSettings(next)] *)
Definition updateSettings (next : PartialSettings num) (prev : Settings)
  : Settings := merge prev next.

Definition set_autoStart (b : bool) (s : Settings) : Settings :=
  {| wordsPerMinute := wordsPerMinute s;
     fontSize := fontSize s;
     lineHeight := lineHeight s;
     autoStart := b |}.

(** *** The asynchronous settings operations

    An [async] function over the settings cell: it reads and writes the
    current settings through [setSettings] and either returns or throws.
    Awaited calls into the autostart plugin are given by what they will do
    ([Bridge]). *)

Record Bridge : Type := mkBridge {
  enable : outcome unit;
  disable : outcome unit
}.

Definition Async (A : Type) : Type := Settings -> outcome A * Settings.

Definition ret (A : Type) (a : A) : Async A := fun s => (Returned a, s).

Definition bind (A B : Type) (m : Async A) (k : A -> Async B) : Async B :=
  fun s =>
    match m s with
    | (Returned a, s') => k a s'
    | (Thrown, s') => (Thrown, s')
    end.

Notation "m ;; k" := (bind m (fun _ => k))
  (at level 61, right associativity).

(** [setSettings((prev) => f(prev))] *)
Definition setSettings (f : Settings -> Settings) : Async unit :=
  fun s => (Returned tt, f s).

(** [await call] *)
Definition await (A : Type) (call : outcome A) : Async A :=
  fun s => (call, s).

(** [try { body } catch { handler }] *)
Definition try_catch (A : Type) (body handler : Async A) : Async A :=
  fun s =>
    match body s with
    | (Thrown, s') => handler s'
    | done => done
    end.

(** The part of [toggleAutoStart] that runs before the first [await]. *)
Definition toggle_flip (next : bool) : Async unit :=
  setSettings (fun prev => set_autoStart next prev).

(** The [catch] block of [toggleAutoStart]. *)
Definition toggle_rollback (next : bool) : Async unit :=
  setSettings (fun prev => set_autoStart (negb next) prev).

(** [toggleAutoStart]: [rendered] is the [settings] value the handler closed
    over; the function runs on the current settings cell. *)
Definition toggleAutoStart (br : Bridge) (rendered : Settings) : Async unit :=
  let next := negb (autoStart rendered) in
  toggle_flip next ;;
  try_catch (if next then await (enable br) else await (disable br))
            (toggle_rollback next).

Definition restoreDefaults (br : Bridge) : Async unit :=
  setSettings (fun _ => DEFAULT_SETTINGS) ;;
  try_catch (await (disable br)) (ret tt).

(* ------------------------------------------------------------------ *)
(** ** The component state *)

Record State : Type := mkState {
  (* useState *)
  mode : Mode;
  isPlaying : bool;
  progress : num;
  content : jsstring;
  settings : Settings;
  (* useRef *)
  startTimeRef : option num;
  startProgressRef : num;
  settingsReturnModeRef : Mode;
  (* a frame callback requested by the playback effect is pending *)
  raf : bool;
  (* the host window has been asked to stay on top *)
  alwaysOnTop : bool
}.

Definition set_mode (v : Mode) (s : State) : State :=
  mkState v (isPlaying s) (progress s) (content s) (settings s)
          (startTimeRef s) (startProgressRef s) (settingsReturnModeRef s)
          (raf s) (alwaysOnTop s).

Definition set_isPlaying (v : bool) (s : State) : State :=
  mkState (mode s) v (progress s) (content s) (settings s)
          (startTimeRef s) (startProgressRef s) (settingsReturnModeRef s)
          (raf s) (alwaysOnTop s).

Definition set_progress (v : num) (s : State) : State :=
  mkState (mode s) (isPlaying s) v (content s) (settings s)
          (startTimeRef s) (startProgressRef s) (settingsReturnModeRef s)
          (raf s) (alwaysOnTop s).

Definition set_content (v : jsstring) (s : State) : State :=
  mkState (mode s) (isPlaying s) (progress s) v (settings s)
          (startTimeRef s) (startProgressRef s) (settingsReturnModeRef s)
          (raf s) (alwaysOnTop s).

Definition set_settings (v : Settings) (s : State) : State :=
  mkState (mode s) (isPlaying s) (progress s) (content s) v
          (startTimeRef s) (startProgressRef s) (settingsReturnModeRef s)
          (raf s) (alwaysOnTop s).

Definition set_startTimeRef (v : option num) (s : State) : State :=
  mkState (mode s) (isPlaying s) (progress s) (content s) (settings s)
          v (startProgressRef s) (settingsReturnModeRef s)
          (raf s) (alwaysOnTop s).

Definition set_startProgressRef (v : num) (s : State) : State :=
  mkState (mode s) (isPlaying s) (progress s) (content s) (settings s)
          (startTimeRef s) v (settingsReturnModeRef s)
          (raf s) (alwaysOnTop s).

Definition set_settingsReturnModeRef (v : Mode) (s : State) : State :=
  mkState (mode s) (isPlaying s) (progress s) (content s) (settings s)
          (startTimeRef s) (startProgressRef s) v
          (raf s) (alwaysOnTop s).

Definition set_raf (v : bool) (s : State) : State :=
  mkState (mode s) (isPlaying s) (progress s) (content s) (settings s)
          (startTimeRef s) (startProgressRef s) (settingsReturnModeRef s)
          v (alwaysOnTop s).

Definition set_alwaysOnTop (v : bool) (s : State) : State :=
  mkState (mode s) (isPlaying s) (progress s) (content s) (settings s)
          (startTimeRef s) (startProgressRef s) (settingsReturnModeRef s)
          (raf s) v.

(** The state of the first render. *)
Definition initial : State :=
  {| mode := Input;
     isPlaying := false;
     progress := Fin 0;
     content := DEFAULT_TEXT;
     settings := DEFAULT_SETTINGS;
     startTimeRef := None;
     startProgressRef := Fin 0;
     settingsReturnModeRef := Input;
     raf := false;
     alwaysOnTop := false |}.

(** *** Derived duration *)

(** [words.length || 1] *)
Definition totalWords_of (content : jsstring) : num :=
  or_one (Fin (inject_Z (Z.of_nat (length (words content))))).

Definition wordsPerSecond_of (st : Settings) : num :=
  div (wordsPerMinute st) (Fin 60).

(** [totalWords / wordsPerSecond].  Both quotients are exact here; the code
    rounds each of them to binary64. *)
Definition totalSeconds_of (content : jsstring) (st : Settings) : num :=
  div (totalWords_of content) (wordsPerSecond_of st).

Definition totalWords (s : State) : num := totalWords_of (content s).
Definition wordsPerSecond (s : State) : num := wordsPerSecond_of (settings s).
Definition totalSeconds (s : State) : num :=
  totalSeconds_of (content s) (settings s).

(** *** The playback effect *)

(** [startTimeRef.current] once a frame at [time] has set it when it was
    [null]. *)
Definition anchor (time : num) (s : State) : num :=
  match startTimeRef s with Some t0 => t0 | None => time end.

(** [(time - startTimeRef.current) / 1000] *)
Definition elapsed (time : num) (s : State) : num :=
  div (sub time (anchor time s)) (Fin 1000).

(** [startProgressRef.current + elapsed / totalSeconds], the candidate that
    [tick] compares with 1.  The quotient and the sum are exact here; the
    code rounds them to binary64, so near 1 the two can fall on different
    sides of the test. *)
Definition nextProgress (time : num) (s : State) : num :=
  add (startProgressRef s) (div (elapsed time s) (totalSeconds s)).

(** [tick(time)]: the pending callback fires, so nothing is pending until
    [requestAnimationFrame] is called again. *)
Definition tick (time : num) (s : State) : State :=
  let fired := set_raf false s in
  let anchored :=
    match startTimeRef fired with
    | None => set_startTimeRef (Some time) fired
    | Some _ => fired
    end in
  if ge (nextProgress time s) (Fin 1) then
    set_isPlaying false
      (set_startProgressRef (Fin 1) (set_progress (Fin 1) anchored))
  else
    set_raf true (set_progress (nextProgress time s) anchored).

(** The cleanup function of the effect: [if (raf) cancelAnimationFrame(raf)]. *)
Definition effect_cleanup (s : State) : State := set_raf false s.

(** The body of the effect below the definition of [tick]: when playing,
    the anchor time is dropped and a frame is requested. *)
Definition effect_body (s : State) : State :=
  if isPlaying s then set_raf true (set_startTimeRef None s) else s.

(** One of the dependencies [[isPlaying, totalSeconds]] differs. *)
Definition deps_changed (prev next : State) : bool :=
  negb (Bool.eqb (isPlaying prev) (isPlaying next))
  || negb (same (totalSeconds prev) (totalSeconds next)).

(** Committing the render that follows an update from [prev] to [next]:
    the effect is cleaned up and run again when a dependency changed. *)
Definition commit (prev next : State) : State :=
  if deps_changed prev next then effect_body (effect_cleanup next) else next.

(** *** Handlers *)

Definition enterPrompter (s : State) : State :=
  set_alwaysOnTop true (set_mode Prompter s).

Definition exitPrompter (s : State) : State := set_mode Input s.

Definition openSettings (s : State) : State :=
  match mode s with
  | SettingsMode => s
  | m =>
      set_mode SettingsMode
        (set_isPlaying false (set_settingsReturnModeRef m s))
  end.

Definition closeSettings (s : State) : State :=
  set_mode (settingsReturnModeRef s) s.

Definition handleStart (s : State) : State :=
  let branched :=
    match mode s with
    | Input =>
        enterPrompter (set_startProgressRef (Fin 0) (set_progress (Fin 0) s))
    | _ => set_startProgressRef (progress s) s
    end in
  set_isPlaying true (set_startTimeRef None branched).

Definition handlePause (s : State) : State :=
  if isPlaying s then set_startProgressRef (progress s) (set_isPlaying false s)
  else s.

Definition handleStop (s : State) : State :=
  exitPrompter
    (set_startTimeRef None
       (set_startProgressRef (Fin 0)
          (set_progress (Fin 0) (set_isPlaying false s)))).

(** The [onChange] handler of the text area. *)
Definition onChange (text : jsstring) (s : State) : State :=
  set_isPlaying false
    (set_startProgressRef (Fin 0) (set_progress (Fin 0) (set_content text s))).

(** The [keydown] listener; [space] says whether [event.code] is ["Space"]. *)
Definition onKey (space : bool) (s : State) : State :=
  match mode s with
  | SettingsMode => s
  | m =>
      if space then
        match m with
        | Input => handleStart s
        | _ => if isPlaying s then handlePause s else handleStart s
        end
      else s
  end.

(** A settings operation applied to the settings cell of the component. *)
Definition on_settings (op : Async unit) (s : State) : State :=
  set_settings (snd (op (settings s))) s.

(* ------------------------------------------------------------------ *)
(** ** Events *)

(** Every numeric setting is a number inside the bounds of its clamp. *)
Definition clamped (st : Settings) : Prop :=
  within 20 240 (wordsPerMinute st)
  /\ within 20 64 (fontSize st)
  /\ within 28 96 (lineHeight st).

Definition clampedb (st : Settings) : bool :=
  withinb 20 240 (wordsPerMinute st)
  && withinb 20 64 (fontSize st)
  && withinb 28 96 (lineHeight st).

(** What can happen to the mounted component: the controls it renders, the
    key listener, a frame callback, the rejection of a bridge call that
    [toggleAutoStart] is waiting for, and the settings that [load] delivers
    once [isEnabled()] has answered, which can be at any moment after the
    mount. *)
Inductive Event : Type :=
| ClickStart
| ClickPause
| ClickStop
| ClickSettings
| ClickBack
| ClickRestore
| ClickAutoStart
| AutoStartRejected (next : bool)
| SlideSpeed (v : Q)
| SlideFontSize (v : Q)
| SlideLineHeight (v : Q)
| EditText (text : jsstring)
| KeyDown (space : bool)
| LoadArrives (st : Settings)
| Frame (time : Q).

(** The component together with the timestamp of the latest frame. *)
Record World : Type := mkWorld {
  app : State;
  now : Q
}.

Definition only_wordsPerMinute (v : Q) : PartialSettings num :=
  {| p_wordsPerMinute := Some (Fin v); p_fontSize := None;
     p_lineHeight := None; p_autoStart := None |}.

Definition only_fontSize (v : Q) : PartialSettings num :=
  {| p_wordsPerMinute := None; p_fontSize := Some (Fin v);
     p_lineHeight := None; p_autoStart := None |}.

Definition only_lineHeight (v : Q) : PartialSettings num :=
  {| p_wordsPerMinute := None; p_fontSize := None;
     p_lineHeight := Some (Fin v); p_autoStart := None |}.

(** The handler an event runs, before the commit.  Of the asynchronous
    handlers [restoreDefaults] and [toggleAutoStart] a click runs the part
    before the first [await]. *)
Definition handler (e : Event) (s : State) : State :=
  match e with
  | ClickStart => handleStart s
  | ClickPause => handlePause s
  | ClickStop => handleStop s
  | ClickSettings => openSettings s
  | ClickBack => closeSettings s
  | ClickRestore => on_settings (setSettings (fun _ => DEFAULT_SETTINGS)) s
  | ClickAutoStart => on_settings (toggle_flip (negb (autoStart (settings s)))) s
  | AutoStartRejected next => on_settings (toggle_rollback next) s
  | SlideSpeed v =>
      set_settings (updateSettings (only_wordsPerMinute v) (settings s)) s
  | SlideFontSize v =>
      set_settings (updateSettings (only_fontSize v) (settings s)) s
  | SlideLineHeight v =>
      set_settings (updateSettings (only_lineHeight v) (settings s)) s
  | EditText text => onChange text s
  | KeyDown space => onKey space s
  | LoadArrives st => set_settings st s
  | Frame time => tick (Fin time) s
  end.

Definition in_range (lo hi v : Q) : bool := Qle_bool lo v && Qle_bool v hi.

(** Which events the component can receive in a state: a control must be
    rendered in the current mode, a range input only reports values between
    its [min] and [max], [load] delivers settings inside the bounds (what
    [normalizeSettings] returns when the stored fields convert to numbers),
    a frame callback must be pending and frame timestamps do not go back. *)
Definition enabled (e : Event) (w : World) : bool :=
  let s := app w in
  match e with
  | ClickStart =>
      match mode s with
      | Input => true
      | Prompter => negb (isPlaying s)
      | SettingsMode => false
      end
  | ClickPause => Mode_eqb (mode s) Prompter && isPlaying s
  | ClickStop => Mode_eqb (mode s) Prompter
  | ClickSettings => negb (Mode_eqb (mode s) SettingsMode)
  | ClickBack | ClickRestore | ClickAutoStart =>
      Mode_eqb (mode s) SettingsMode
  | AutoStartRejected _ => true
  | SlideSpeed v => Mode_eqb (mode s) SettingsMode && in_range 20 240 v
  | SlideFontSize v => Mode_eqb (mode s) SettingsMode && in_range 20 64 v
  | SlideLineHeight v => Mode_eqb (mode s) SettingsMode && in_range 28 96 v
  | EditText _ => Mode_eqb (mode s) Input
  | KeyDown _ => true
  | LoadArrives st => clampedb st
  | Frame time => raf s && Qle_bool (now w) time
  end.

Definition step (e : Event) (w : World) : World :=
  {| app := commit (app w) (handler e (app w));
     now := match e with Frame time => time | _ => now w end |}.

(** Runs a list of events; [None] when one of them cannot happen. *)
Fixpoint run (es : list Event) (w : World) : option World :=
  match es with
  | [] => Some w
  | e :: rest => if enabled e w then run rest (step e w) else None
  end.

(** The mounted component, with settings [st] in its settings cell. *)
Definition boot (st : Settings) : World :=
  {| app := set_settings st initial; now := 0 |}.

Inductive reachable (st : Settings) : World -> Prop :=
| reach_boot : reachable st (boot st)
| reach_step (w : World) (e : Event) :
    reachable st w -> enabled e w = true -> reachable st (step e w).

(* ------------------------------------------------------------------ *)
(** ** Invariants *)

(** The rational a finite number stands for. *)
Definition toQ (a : num) : Q :=
  match a with Fin x => x | _ => 0 end.

(** While a play interval is running, an anchor time that has been set is
    the timestamp of a frame that has fired. *)
Definition timed (w : World) : Prop :=
  match startTimeRef (app w) with
  | None => True
  | Some (Fin t0) => t0 <= now w
  | Some _ => False
  end.

Record Inv (w : World) : Prop := mkInv {
  inv_raf : raf (app w) = isPlaying (app w);
  inv_playing : isPlaying (app w) = true -> mode (app w) = Prompter;
  inv_input : mode (app w) = Input -> progress (app w) = Fin 0;
  inv_return : settingsReturnModeRef (app w) <> SettingsMode;
  inv_return_input :
    mode (app w) = SettingsMode ->
    settingsReturnModeRef (app w) = Input -> progress (app w) = Fin 0;
  inv_clamped : clamped (settings (app w));
  inv_progress : within 0 1 (progress (app w));
  inv_startProgress : within 0 1 (startProgressRef (app w));
  inv_timed : isPlaying (app w) = true -> timed w
}.

(** The part of the invariant that concerns modes and scheduling only. *)
Record ModeInv (s : State) : Prop := mkModeInv {
  minv_raf : raf s = isPlaying s;
  minv_playing : isPlaying s = true -> mode s = Prompter;
  minv_return : settingsReturnModeRef s <> SettingsMode
}.

(** The state [tick] leaves when the candidate has reached 1. *)
Definition completed_at (a : num) (s : State) : State :=
  mkState (mode s) false (Fin 1) (content s) (settings s)
          (Some a) (Fin 1) (settingsReturnModeRef s) false (alwaysOnTop s).

(** The state [tick] leaves when the candidate [c] is below 1. *)
Definition advanced_to (a c : num) (s : State) : State :=
  mkState (mode s) (isPlaying s) c (content s) (settings s)
          (Some a) (startProgressRef s) (settingsReturnModeRef s) true
          (alwaysOnTop s).

(** The events that reset the session explicitly: a stop and an edit of the
    script. *)
Definition is_reset (e : Event) : bool :=
  match e with
  | ClickStop | EditText _ => true
  | _ => false
  end.

(** *** The settings store on its own *)

Section SettingsStore.

Variable JsValue : Type.
Variable Number : JsValue -> num.

Inductive SettingsOp : Type :=
| OpLoad (parsed : outcome (PartialSettings JsValue)) (live : outcome bool)
| OpUpdate (next : PartialSettings num)
| OpToggleAutoStart (br : Bridge)
| OpRestoreDefaults (br : Bridge).

Definition apply_op (op : SettingsOp) (st : Settings) : Settings :=
  match op with
  | OpLoad parsed live => load Number parsed live
  | OpUpdate next => updateSettings next st
  | OpToggleAutoStart br => snd (toggleAutoStart br st st)
  | OpRestoreDefaults br => snd (restoreDefaults br st)
  end.

Definition run_ops (ops : list SettingsOp) (st : Settings) : Settings :=
  fold_left (fun acc op => apply_op op acc) ops st.

(** A stored field, when present, converts to an actual number. *)
Definition converts (field : option JsValue) : Prop :=
  match field with Some v => Number v <> NaN | None => True end.

(** A field of an update, when present, lies inside the bounds. *)
Definition field_within (lo hi : Q) (field : option num) : Prop :=
  match field with Some a => within lo hi a | None => True end.

(** What the callers of the store guarantee: stored fields that convert to
    numbers, updates that carry values from inside the slider ranges. *)
Definition op_ok (op : SettingsOp) : Prop :=
  match op with
  | OpLoad (Returned r) _ =>
      converts (p_wordsPerMinute r) /\ converts (p_fontSize r)
      /\ converts (p_lineHeight r)
  | OpUpdate next =>
      field_within 20 240 (p_wordsPerMinute next)
      /\ field_within 20 64 (p_fontSize next)
      /\ field_within 28 96 (p_lineHeight next)
  | _ => True
  end.

End SettingsStore.

(** Two numbers have the same value ([Fin] holds fractions that need not
    be in lowest terms). *)
Definition num_eq (a b : num) : Prop :=
  match a, b with
  | NaN, NaN | NegInf, NegInf | PosInf, PosInf => True
  | Fin x, Fin y => x == y
  | _, _ => False
  end.

(** *** Sample sessions *)

(** The default script is started and two frames arrive, at 0 ms and at
    3000 ms: half of its six seconds are played. *)
Definition half_played : World :=
  step (Frame 3000) (step (Frame 0) (step ClickStart (boot DEFAULT_SETTINGS))).

(** The same session when the second frame arrives at 7000 ms: the script
    has been played to its end. *)
Definition played_out : World :=
  step (Frame 7000) (step (Frame 0) (step ClickStart (boot DEFAULT_SETTINGS))).

(** Parsed JSON values as they can stand in a stored record, and [Number]
    on them: a number converts to itself, an object such as [{}] to
    [NaN]. *)
Inductive StoredValue : Type :=
| StoredNumber (n : num)
| StoredObject.

Definition Number_of_stored (v : StoredValue) : num :=
  match v with
  | StoredNumber n => n
  | StoredObject => NaN
  end.

(** The default settings with the speed set to 120. *)
Definition speed_120 : Settings :=
  updateSettings (only_wordsPerMinute 120) DEFAULT_SETTINGS.

(** The half-played session at the moment [load] delivers [speed_120]. *)
Definition load_mid_play : World := step (LoadArrives speed_120) half_played.


(** A script of ten one-letter words. *)
Definition ten_words : jsstring :=
  [97; 32; 98; 32; 99; 32; 100; 32; 101; 32; 102; 32; 103; 32; 104; 32; 105;
   32; 106]%N.

(* ------------------------------------------------------------------ *)
(** ** Further parts of the component *)

(** A code unit that [\s] does not match. *)
Definition nonspace (c : N) : bool := negb (is_space c).

(** The pieces of [split_go] that [filter(Boolean)] keeps, computed in one
    pass: a piece is emitted when a separator ends it, unless it is empty. *)
Fixpoint kept_go (s cur : jsstring) : list jsstring :=
  match s with
  | [] => match cur with [] => [] | _ => [rev cur] end
  | c :: r =>
      if is_space c then
        match cur with
        | [] => kept_go r []
        | _ => rev cur :: kept_go r []
        end
      else kept_go r (c :: cur)
  end.

(** [a * b] *)
Definition num_mul (a b : num) : num :=
  match a, b with
  | NaN, _ | _, NaN => NaN
  | Fin x, Fin y => Fin (x * y)
  | Fin x, PosInf | PosInf, Fin x =>
      if Qeq_bool x 0 then NaN else if Qneg_bool x then NegInf else PosInf
  | Fin x, NegInf | NegInf, Fin x =>
      if Qeq_bool x 0 then NaN else if Qneg_bool x then PosInf else NegInf
  | PosInf, PosInf | NegInf, NegInf => PosInf
  | PosInf, NegInf | NegInf, PosInf => NegInf
  end.

(** The scroll effect.  [el] is the element [scrollRef.current] holds, given
    by its [scrollHeight] and [clientHeight], or [None] when the ref is
    [null]; the result is the value assigned to [scrollTop], if any. *)
Definition scroll_effect (el : option (num * num)) (s : State) : option num :=
  match el with
  | None => None
  | Some (scrollHeight, clientHeight) =>
      let maxScroll := sub scrollHeight clientHeight in
      Some (num_mul maxScroll (progress s))
  end.

(** The [setSettings] call that ends [load], committed: the settings cell
    is replaced whatever the component is doing at that moment. *)
Definition load_arrives (st : Settings) (s : State) : State :=
  commit s (set_settings st s).

(** What [JSON.stringify] keeps of a number: [NaN] and the infinities are
    written as [null], which [??] treats as absent when the text is read
    back. *)
Definition json_number (a : num) : option num :=
  match a with
  | Fin _ => Some a
  | _ => None
  end.

(** The persistence effect followed by the read at the next mount: what
    [JSON.parse] returns for the text [JSON.stringify(settings)] wrote.  The
    stored flag is kept as it is; [load] overrides it. *)
Definition persisted (st : Settings) : PartialSettings num :=
  {| p_wordsPerMinute := json_number (wordsPerMinute st);
     p_fontSize := json_number (fontSize st);
     p_lineHeight := json_number (lineHeight st);
     p_autoStart := Some (autoStart st) |}.

(** [Number(n)] for a value that is a number already. *)
Definition Number_of_number (n : num) : num := n.

(** Two settings with the same values. *)
Definition settings_eq (a b : Settings) : Prop :=
  num_eq (wordsPerMinute a) (wordsPerMinute b)
  /\ num_eq (fontSize a) (fontSize b)
  /\ num_eq (lineHeight a) (lineHeight b)
  /\ autoStart a = autoStart b.

(** A bridge whose calls all succeed. *)
Definition working_bridge : Bridge :=
  {| enable := Returned tt; disable := Returned tt |}.

(** The text ["a b"] and the text ["  a \n b "]. *)
Definition two_words : jsstring := [97; 32; 98]%N.
Definition two_words_padded : jsstring := [32; 32; 97; 32; 10; 32; 98; 32]%N.

(** The half-played session with the settings opened. *)
Definition half_played_in_settings : World := step ClickSettings half_played.

(* ------------------------------------------------------------------ *)
(** ** Numbers: basic facts *)

Lemma same_refl (a : num) : same a a = true.
Proof.
  destruct a; simpl; trivial. apply Qeq_bool_iff. reflexivity.
Qed.

Lemma within_fin (lo hi : Q) (a : num) :
  within lo hi a -> a = Fin (toQ a) /\ lo <= toQ a /\ toQ a <= hi.
Proof.
  destruct a; simpl; try contradiction. intros [H1 H2]. auto.
Qed.

Lemma withinb_sound (lo hi : Q) (a : num) :
  withinb lo hi a = true -> within lo hi a.
Proof.
  destruct a; simpl; try discriminate.
  intros H. apply andb_true_iff in H. destruct H as [H1 H2].
  split; apply Qle_bool_iff; assumption.
Qed.

Lemma clampedb_sound (st : Settings) : clampedb st = true -> clamped st.
Proof.
  unfold clampedb, clamped. intros H.
  apply andb_true_iff in H. destruct H as [H H3].
  apply andb_true_iff in H. destruct H as [H1 H2].
  auto using withinb_sound.
Qed.

Lemma Qeq_bool_false_of_pos (x : Q) : 0 < x -> Qeq_bool x 0 = false.
Proof.
  intros Hx. destruct (Qeq_bool x 0) eqn:E; trivial.
  apply Qeq_bool_iff in E. rewrite E in Hx. exfalso. revert Hx. apply Qlt_irrefl.
Qed.

Lemma div_fin_pos (x y : Q) : 0 < y -> div (Fin x) (Fin y) = Fin (x / y).
Proof.
  intros Hy. simpl. rewrite (Qeq_bool_false_of_pos Hy). reflexivity.
Qed.

Lemma ge_fin (x y : Q) : ge (Fin x) (Fin y) = true <-> y <= x.
Proof. simpl. apply Qle_bool_iff. Qed.

Lemma ge_fin_false (x y : Q) : ge (Fin x) (Fin y) = false <-> x < y.
Proof.
  simpl. split; intros H.
  - apply Qnot_le_lt. intros Hle. apply Qle_bool_iff in Hle. congruence.
  - destruct (Qle_bool y x) eqn:E; trivial.
    apply Qle_bool_iff in E. exfalso. apply (Qlt_not_le _ _ H E).
Qed.

(* ------------------------------------------------------------------ *)
(** ** The derived duration is a positive number *)

Lemma totalWords_of_fin (text : jsstring) :
  exists n : Q, totalWords_of text = Fin n /\ 1 <= n.
Proof.
  unfold totalWords_of, or_one.
  set (k := inject_Z (Z.of_nat (length (words text)))).
  assert (Hk : k == 0 \/ 1 <= k).
  { unfold k. destruct (length (words text)) as [|m].
    - left. reflexivity.
    - right. unfold Qle, inject_Z. cbn [Qnum Qden]. lia. }
  destruct (Qeq_bool k 0) eqn:E.
  - exists 1. split; [reflexivity | apply Qle_refl].
  - exists k. split; [reflexivity|].
    destruct Hk as [Hk|Hk]; trivial.
    apply Qeq_bool_iff in Hk. congruence.
Qed.

Lemma totalSeconds_of_fin (text : jsstring) (st : Settings) (q : Q) :
  wordsPerMinute st = Fin q -> 20 <= q ->
  exists T : Q, totalSeconds_of text st = Fin T /\ 0 < T.
Proof.
  intros Hq Hlo.
  destruct (totalWords_of_fin text) as [n [Hn Hn1]].
  unfold totalSeconds_of, wordsPerSecond_of. rewrite Hn, Hq.
  assert (H60 : 0 < 60) by reflexivity.
  rewrite (div_fin_pos q H60).
  assert (Hwps : 0 < q / 60).
  { apply Qlt_shift_div_l; trivial. lra. }
  rewrite (div_fin_pos n Hwps).
  exists (n / (q / 60)). split; trivial.
  apply Qlt_shift_div_l; trivial. lra.
Qed.

Lemma totalSeconds_clamped (s : State) :
  clamped (settings s) ->
  totalSeconds s = Fin (toQ (totalSeconds s)) /\ 0 < toQ (totalSeconds s).
Proof.
  intros [Hw _]. apply within_fin in Hw. destruct Hw as [Hq [Hlo _]].
  destruct (totalSeconds_of_fin (content s) (settings s) Hq Hlo) as [T [HT Hpos]].
  unfold totalSeconds. rewrite HT. simpl. auto.
Qed.

(* ------------------------------------------------------------------ *)
(** ** One frame of the playback effect *)

Arguments totalSeconds_of : simpl never.

Lemma tick_spec (time : num) (s : State) :
  tick time s =
  if ge (nextProgress time s) (Fin 1)
  then completed_at (anchor time s) s
  else advanced_to (anchor time s) (nextProgress time s) s.
Proof.
  unfold tick, anchor, completed_at, advanced_to.
  destruct s as [m ip p c st t0 sp ret rf aot]; cbn.
  destruct t0; destruct (ge _ _); reflexivity.
Qed.

Lemma frame_spec (time : num) (s : State) :
  isPlaying s = true ->
  commit s (tick time s) = tick time s.
Proof.
  intros Hp. rewrite tick_spec.
  unfold commit, deps_changed, effect_body, effect_cleanup.
  destruct (ge _ _); cbn; rewrite Hp; cbn.
  - reflexivity.
  - unfold totalSeconds; cbn. rewrite same_refl. reflexivity.
Qed.

Lemma nextProgress_fin (t sp a : Q) (s : State) :
  clamped (settings s) ->
  startProgressRef s = Fin sp ->
  anchor (Fin t) s = Fin a ->
  nextProgress (Fin t) s
  = Fin (sp + ((t + - a) / 1000) / toQ (totalSeconds s)).
Proof.
  intros Hc Hsp Ha.
  destruct (totalSeconds_clamped s Hc) as [HT Hpos].
  unfold nextProgress, elapsed. rewrite Hsp, Ha, HT. cbn [sub neg add].
  assert (H1000 : 0 < 1000) by reflexivity.
  rewrite (div_fin_pos (t + - a) H1000).
  rewrite (div_fin_pos _ Hpos). reflexivity.
Qed.

(** A share of the duration that is not negative. *)
Lemma share_nonneg (d T : Q) : 0 <= d -> 0 < T -> 0 <= (d / 1000) / T.
Proof.
  intros Hd HT. apply Qle_shift_div_l; trivial.
  rewrite Qmult_0_l. apply Qle_shift_div_l; [reflexivity|].
  rewrite Qmult_0_l. exact Hd.
Qed.

Lemma share_mono (d1 d2 T : Q) :
  d1 <= d2 -> 0 < T -> (d1 / 1000) / T <= (d2 / 1000) / T.
Proof.
  intros Hd HT. unfold Qdiv.
  apply Qmult_le_compat_r.
  - apply Qmult_le_compat_r; trivial. discriminate.
  - apply Qlt_le_weak, Qinv_lt_0_compat, HT.
Qed.

Lemma share_zero (t T : Q) : ((t + - t) / 1000) / T == 0.
Proof.
  assert (H : t + - t == 0) by ring.
  rewrite H. unfold Qdiv. ring.
Qed.

(* ------------------------------------------------------------------ *)
(** ** The invariant holds in every reachable state *)

Lemma within_0_1_zero : within 0 1 (Fin 0).
Proof. simpl. split; discriminate. Qed.

Lemma within_0_1_one : within 0 1 (Fin 1).
Proof. simpl. split; discriminate. Qed.

Lemma totalSeconds_set_autoStart (text : jsstring) (b : bool) (st : Settings) :
  totalSeconds_of text (set_autoStart b st) = totalSeconds_of text st.
Proof. reflexivity. Qed.

Lemma clamped_set_autoStart (b : bool) (st : Settings) :
  clamped st -> clamped (set_autoStart b st).
Proof. intros H; exact H. Qed.

Lemma in_range_within (lo hi v : Q) :
  in_range lo hi v = true -> within lo hi (Fin v).
Proof.
  unfold in_range. intros H. apply andb_true_iff in H. destruct H as [H1 H2].
  split; apply Qle_bool_iff; assumption.
Qed.

Lemma clamped_default : clamped DEFAULT_SETTINGS.
Proof. apply clampedb_sound. reflexivity. Qed.

Lemma Inv_boot (st : Settings) : clamped st -> Inv (boot st).
Proof.
  intros Hc.
  constructor; cbn - [within clamped]; try congruence;
    auto using within_0_1_zero.
Qed.

Ltac commit_tac :=
  unfold step, commit, deps_changed, effect_body, effect_cleanup, totalSeconds;
  cbn - [within clamped].

Lemma Inv_frame (w : World) (t : Q) :
  Inv w -> enabled (Frame t) w = true -> Inv (step (Frame t) w).
Proof.
  intros HI He. cbn in He. apply andb_true_iff in He. destruct He as [Hraf Hnow].
  apply Qle_bool_iff in Hnow.
  destruct HI as [H1 H2 H3 H4 H5 H6 H7 H8 H9].
  assert (Hp : isPlaying (app w) = true) by congruence.
  specialize (H2 Hp). specialize (H9 Hp).
  unfold step. cbn [handler]. rewrite (frame_spec _ _ Hp), tick_spec.
  destruct (totalSeconds_clamped _ H6) as [HT Hpos].
  destruct (within_fin _ _ _ H8) as [Hsp [Hsp0 Hsp1]].
  assert (Ha : exists a, anchor (Fin t) (app w) = Fin a /\ a <= t).
  { unfold timed in H9. unfold anchor.
    destruct (startTimeRef (app w)) as [[| |t0|]|]; try contradiction.
    - exists t0. split; trivial. lra.
    - exists t. split; trivial. lra. }
  destruct Ha as [a [Ha Hat]].
  rewrite (nextProgress_fin t _ H6 Hsp Ha). rewrite Ha.
  set (c := toQ (startProgressRef (app w)) + (t + - a) / 1000 / toQ (totalSeconds (app w))).
  assert (Hc0 : 0 <= c).
  { unfold c. pose proof (@share_nonneg (t + - a) (toQ (totalSeconds (app w)))) as Hs.
    assert (0 <= t + - a) by lra. specialize (Hs H Hpos). lra. }
  destruct (ge (Fin c) (Fin 1)) eqn:E.
  - constructor; cbn - [within clamped]; try congruence; auto using within_0_1_one.
    all: try (rewrite H2; discriminate).
  - apply ge_fin_false in E.
    constructor; cbn - [within clamped]; try congruence; auto.
    cbn. split; lra.
Qed.

Lemma Inv_load (w : World) (st' : Settings) :
  Inv w -> clamped st' -> Inv (step (LoadArrives st') w).
Proof.
  intros [H1 H2 H3 H4 H5 H6 H7 H8 H9] Hc.
  destruct w as [s n]; destruct s as [m ip p c st t0 sp ret rf aot];
    cbn - [within clamped timed] in *.
  subst rf.
  destruct ip; commit_tac; rewrite ?same_refl; cbn - [within clamped timed];
    try match goal with |- context [same ?a ?b] => destruct (same a b) end;
    cbn - [within clamped timed];
    constructor; cbn - [within clamped timed]; intros;
    try congruence; auto.
  all: try (unfold timed; cbn; exact I).
Qed.

Lemma Inv_step (w : World) (e : Event) :
  Inv w -> enabled e w = true -> Inv (step e w).
Proof.
  destruct e; try solve [apply Inv_frame];
    try solve [intros HI He; apply Inv_load;
               [exact HI | apply clampedb_sound; exact He]].
  all: intros [H1 H2 H3 H4 H5 H6 H7 H8 H9] He;
    destruct w as [s n]; destruct s as [m ip p c st t0 sp ret rf aot];
    cbn - [within clamped timed] in *.
  all: try (apply andb_true_iff in He; destruct He as [He Hv];
            apply in_range_within in Hv).
  all: try destruct space.
  all: destruct m, ip; try discriminate He;
    try (assert (Prompter = Input) by auto; discriminate);
    try (assert (SettingsMode = Prompter) by auto; discriminate);
    try (assert (Input = Prompter) by auto; discriminate).
  all: commit_tac; rewrite ?same_refl; cbn - [within clamped timed].
  all: try match goal with |- context [same ?a ?b] => destruct (same a b) end;
    cbn - [within clamped timed].
  all: subst rf.
  all: constructor; cbn - [within clamped timed]; intros;
    try congruence; auto using within_0_1_zero, within_0_1_one.
  all: try (unfold timed; cbn; exact I).
  all: try apply clamped_default.
  all: destruct H6 as [Hw [Hf Hl]]; unfold clamped; cbn - [within]; auto.
Qed.

Lemma reachable_Inv (st : Settings) (w : World) :
  clamped st -> reachable st w -> Inv w.
Proof.
  intros Hc Hr. induction Hr; auto using Inv_boot, Inv_step.
Qed.

Lemma ModeInv_boot (st : Settings) : ModeInv (app (boot st)).
Proof. constructor; cbn; congruence. Qed.

Lemma ModeInv_step (w : World) (e : Event) :
  ModeInv (app w) -> enabled e w = true -> ModeInv (app (step e w)).
Proof.
  destruct e.
  15: { intros [H1 H2 H3] He. cbn in He.
        apply andb_true_iff in He. destruct He as [Hraf _].
        assert (Hp : isPlaying (app w) = true) by congruence.
        unfold step. cbn [handler app]. rewrite (frame_spec _ _ Hp), tick_spec.
        destruct (ge _ _); constructor; cbn; auto; congruence. }
  14: { intros [H1 H2 H3] _.
        destruct w as [s n]; destruct s as [m ip p c s0 t0 sp ret rf aot];
          cbn in *.
        subst rf.
        destruct ip; commit_tac; rewrite ?same_refl; cbn;
          try match goal with
              | |- context [same ?a ?b] => destruct (same a b)
              end;
          cbn; constructor; cbn; intros; try congruence; auto. }
  all: intros [H1 H2 H3] He;
    destruct w as [s n]; destruct s as [m ip p c st t0 sp ret rf aot];
    cbn in *.
  all: try (apply andb_true_iff in He; destruct He as [He Hv]).
  all: try destruct space.
  all: destruct m, ip; try discriminate He;
    try (assert (Prompter = Input) by auto; discriminate);
    try (assert (SettingsMode = Prompter) by auto; discriminate);
    try (assert (Input = Prompter) by auto; discriminate).
  all: commit_tac; rewrite ?same_refl; cbn.
  all: try match goal with |- context [same ?a ?b] => destruct (same a b) end;
    cbn.
  all: subst rf.
  all: constructor; cbn; intros; try congruence; auto.
Qed.

Lemma reachable_ModeInv (st : Settings) (w : World) :
  reachable st w -> ModeInv (app w).
Proof.
  intros Hr. induction Hr; auto using ModeInv_boot, ModeInv_step.
Qed.

Lemma commit_progress (prev next : State) :
  progress (commit prev next) = progress next.
Proof.
  unfold commit, effect_body, effect_cleanup.
  destruct (deps_changed prev next); trivial.
  cbn. destruct (isPlaying next) eqn:E; cbn; congruence.
Qed.

Lemma commit_mode (prev next : State) :
  mode (commit prev next) = mode next.
Proof.
  unfold commit, effect_body, effect_cleanup.
  destruct (deps_changed prev next); trivial.
  cbn. destruct (isPlaying next) eqn:E; cbn; congruence.
Qed.

Lemma commit_isPlaying (prev next : State) :
  isPlaying (commit prev next) = isPlaying next.
Proof.
  unfold commit, effect_body, effect_cleanup.
  destruct (deps_changed prev next); trivial.
  cbn. destruct (isPlaying next) eqn:E; cbn; congruence.
Qed.

Lemma commit_startProgressRef (prev next : State) :
  startProgressRef (commit prev next) = startProgressRef next.
Proof.
  unfold commit, effect_body, effect_cleanup.
  destruct (deps_changed prev next); trivial.
  cbn. destruct (isPlaying next) eqn:E; cbn; congruence.
Qed.

Lemma commit_settingsReturnModeRef (prev next : State) :
  settingsReturnModeRef (commit prev next) = settingsReturnModeRef next.
Proof.
  unfold commit, effect_body, effect_cleanup.
  destruct (deps_changed prev next); trivial.
  cbn. destruct (isPlaying next) eqn:E; cbn; congruence.
Qed.

Lemma commit_stopped (prev next : State) :
  isPlaying next = false ->
  startTimeRef (commit prev next) = startTimeRef next.
Proof.
  intros H. unfold commit, effect_body, effect_cleanup.
  destruct (deps_changed prev next); trivial.
  cbn. rewrite H. reflexivity.
Qed.

(* ------------------------------------------------------------------ *)
(** ** Natural completion *)

(** C1.  A frame of a playing session whose candidate progress
    [startProgress + elapsed / totalSeconds] is at least 1 sets the progress
    and the anchor progress to 1, clears [isPlaying], leaves no frame
    callback pending and does not touch the mode; in every reachable state
    in which a frame can fire the mode is [Prompter], and it still is
    afterwards. *)
Theorem natural_completion :
  (forall (s : State) (time : num),
      isPlaying s = true ->
      ge (nextProgress time s) (Fin 1) = true ->
      let s' := commit s (tick time s) in
      progress s' = Fin 1
      /\ startProgressRef s' = Fin 1
      /\ isPlaying s' = false
      /\ raf s' = false
      /\ mode s' = mode s)
  /\ (forall (st : Settings) (w : World) (time : Q),
         reachable st w ->
         enabled (Frame time) w = true ->
         ge (nextProgress (Fin time) (app w)) (Fin 1) = true ->
         let w' := step (Frame time) w in
         isPlaying (app w) = true
         /\ mode (app w) = Prompter
         /\ mode (app w') = Prompter
         /\ progress (app w') = Fin 1
         /\ isPlaying (app w') = false
         /\ forall later : Q, enabled (Frame later) w' = false).
Proof.
  assert (A : forall (s : State) (time : num),
      isPlaying s = true ->
      ge (nextProgress time s) (Fin 1) = true ->
      let s' := commit s (tick time s) in
      progress s' = Fin 1
      /\ startProgressRef s' = Fin 1
      /\ isPlaying s' = false
      /\ raf s' = false
      /\ mode s' = mode s).
  { intros s time Hp Hge s'. subst s'.
    rewrite (frame_spec _ _ Hp), tick_spec, Hge. cbn. auto. }
  split; [exact A|].
  intros st w time Hr He Hge w'.
  destruct (reachable_ModeInv Hr) as [H1 H2 H3].
  cbn in He. apply andb_true_iff in He. destruct He as [Hraf _].
  assert (Hp : isPlaying (app w) = true) by congruence.
  destruct (A (app w) (Fin time) Hp Hge) as [Q1 [Q2 [Q3 [Q4 Q5]]]].
  subst w'. unfold step; cbn [app handler].
  repeat split; auto.
  - rewrite Q5. auto.
  - intros later. unfold enabled. cbn [app]. rewrite Q4. reflexivity.
Qed.

(* ------------------------------------------------------------------ *)
(** ** Stop *)

(** C2.  Whatever the state, [handleStop] clears [isPlaying], sets the
    progress and the anchor progress to 0, drops the anchor time and moves
    to [Input]; the same holds once the update is committed. *)
Theorem stop_resets :
  forall (s : State) (n : Q),
    let stopped := handleStop s in
    let w' := step ClickStop {| app := s; now := n |} in
    (isPlaying stopped = false
     /\ progress stopped = Fin 0
     /\ startProgressRef stopped = Fin 0
     /\ startTimeRef stopped = None
     /\ mode stopped = Input)
    /\ (isPlaying (app w') = false
        /\ progress (app w') = Fin 0
        /\ startProgressRef (app w') = Fin 0
        /\ startTimeRef (app w') = None
        /\ mode (app w') = Input).
Proof.
  intros s n stopped w'. subst stopped w'.
  split; [cbn; auto 6|].
  unfold step. cbn [app handler].
  rewrite commit_isPlaying, commit_progress, commit_startProgressRef,
    commit_mode.
  rewrite commit_stopped by reflexivity.
  cbn. auto 6.
Qed.

(* ------------------------------------------------------------------ *)
(** ** Settings and back *)

(** C5.  Opening the settings from [Input] or [Prompter] records that mode
    and closing them restores it; opening them while they are open changes
    nothing; the recorded mode is never [SettingsMode] in a reachable
    state. *)
Theorem settings_round_trip :
  (forall (s : State) (m : Mode),
      mode s = m -> m <> SettingsMode ->
      settingsReturnModeRef (openSettings s) = m
      /\ mode (openSettings s) = SettingsMode
      /\ mode (closeSettings (openSettings s)) = m
      /\ forall n : Q,
          mode (app (step ClickBack
                       (step ClickSettings {| app := s; now := n |}))) = m)
  /\ (forall (s : State) (n : Q),
         mode s = SettingsMode ->
         openSettings s = s
         /\ step ClickSettings {| app := s; now := n |}
            = {| app := s; now := n |})
  /\ (forall (st : Settings) (w : World),
         reachable st w -> settingsReturnModeRef (app w) <> SettingsMode).
Proof.
  split; [|split].
  - intros s m Hm Hne.
    assert (H : settingsReturnModeRef (openSettings s) = m
                /\ mode (openSettings s) = SettingsMode
                /\ mode (closeSettings (openSettings s)) = m).
    { unfold openSettings, closeSettings. rewrite Hm.
      destruct m; try congruence; cbn; auto. }
    destruct H as [Ha [Hb Hc]]. repeat split; trivial.
    intros n. unfold step. cbn [app handler now].
    rewrite commit_mode. unfold closeSettings. cbn [mode set_mode].
    rewrite commit_settingsReturnModeRef. exact Ha.
  - intros s n Hm.
    assert (H : openSettings s = s).
    { unfold openSettings. rewrite Hm. reflexivity. }
    split; trivial.
    unfold step. cbn [app handler now]. rewrite H.
    unfold commit, deps_changed. rewrite same_refl, eqb_reflx. reflexivity.
  - intros st w Hr. exact (minv_return (reachable_ModeInv Hr)).
Qed.

(* ------------------------------------------------------------------ *)
(** ** Autostart *)




(* ------------------------------------------------------------------ *)
(** ** The settings store and its bounds *)

Lemma clamp_within (lo hi : Q) (a : num) :
  lo <= hi -> a <> NaN -> within lo hi (clamp a (Fin lo) (Fin hi)).
Proof.
  intros Hlh Ha. unfold clamp.
  assert (Hb : Qle_bool lo hi = true) by (apply Qle_bool_iff; exact Hlh).
  destruct a as [| |x|]; try congruence; cbn.
  - rewrite Hb. cbn. split; [apply Qle_refl | exact Hlh].
  - destruct (Qle_bool x lo) eqn:E1; cbn.
    + rewrite Hb. cbn. split; [apply Qle_refl | exact Hlh].
    + destruct (Qle_bool x hi) eqn:E2; cbn.
      * split; [|apply Qle_bool_iff; exact E2].
        apply Qlt_le_weak, Qnot_le_lt. intros Hc.
        apply Qle_bool_iff in Hc. congruence.
      * split; [exact Hlh | apply Qle_refl].
  - split; [exact Hlh | apply Qle_refl].
Qed.

Lemma number_or_converts (JsValue : Type) (Number : JsValue -> num)
      (field : option JsValue) (dflt : Q) :
  converts Number field -> number_or Number field (Fin dflt) <> NaN.
Proof.
  destruct field; cbn; [auto | discriminate].
Qed.

Lemma normalizeSettings_clamped (JsValue : Type) (Number : JsValue -> num)
      (value : PartialSettings JsValue) :
  converts Number (p_wordsPerMinute value) ->
  converts Number (p_fontSize value) ->
  converts Number (p_lineHeight value) ->
  clamped (normalizeSettings Number value).
Proof.
  intros H1 H2 H3. unfold clamped, normalizeSettings.
  cbn [wordsPerMinute fontSize lineHeight].
  repeat split;
    apply clamp_within; try discriminate;
    apply number_or_converts; assumption.
Qed.

Lemma merge_clamped (prev : Settings) (next : PartialSettings num) :
  clamped prev ->
  field_within 20 240 (p_wordsPerMinute next) ->
  field_within 20 64 (p_fontSize next) ->
  field_within 28 96 (p_lineHeight next) ->
  clamped (merge prev next).
Proof.
  intros [P1 [P2 P3]] H1 H2 H3. unfold clamped, merge.
  cbn [wordsPerMinute fontSize lineHeight].
  destruct next as [[a|] [b|] [c|] d]; cbn in *; auto.
Qed.

Lemma apply_op_clamped (JsValue : Type) (Number : JsValue -> num)
      (op : SettingsOp JsValue) (st : Settings) :
  clamped st -> op_ok Number op -> clamped (apply_op Number op st).
Proof.
  intros Hc Hok. destruct op as [parsed live|next|br|br]; cbn [apply_op].
  - unfold load. destruct parsed as [r|]; cbn in Hok.
    + destruct Hok as [H1 [H2 H3]].
      apply normalizeSettings_clamped; assumption.
    + apply normalizeSettings_clamped; exact I.
  - destruct Hok as [H1 [H2 H3]]. apply merge_clamped; assumption.
  - unfold toggleAutoStart, bind, try_catch, toggle_flip, toggle_rollback,
      setSettings, await.
    destruct (autoStart st); cbn;
      [destruct (disable br) as [[]|] | destruct (enable br) as [[]|]];
      cbn; exact Hc.
  - unfold restoreDefaults, bind, try_catch, setSettings, await, ret.
    destruct (disable br) as [[]|]; cbn; apply clamped_default.
Qed.

(** Where the bounds do hold.  [load] clamps every stored field that
    converts to a number, [restoreDefaults] stores the defaults,
    [toggleAutoStart] touches the flag only, and [updateSettings] stores
    what the range inputs give it.  So, from settings inside the bounds,
    every sequence of these operations in which the loads read fields that
    convert to numbers and the updates carry values from inside the bounds
    ends in settings inside the bounds. *)
Lemma settings_stay_clamped :
  forall (JsValue : Type) (Number : JsValue -> num)
         (ops : list (SettingsOp JsValue)) (st : Settings),
    clamped st ->
    Forall (op_ok Number) ops ->
    clamped (run_ops Number ops st).
Proof.
  intros JsValue Number ops. unfold run_ops.
  induction ops as [|op rest IH]; intros st Hc Hok; cbn [fold_left].
  - exact Hc.
  - inversion Hok as [|? ? Hop Hrest]; subst.
    apply IH; [apply apply_op_clamped; assumption | assumption].
Qed.

(** X5.  A stored field that converts to [NaN] is not clamped: [Math.max]
    and [Math.min] return [NaN] when an argument is [NaN]. *)
Lemma load_passes_NaN (JsValue : Type) (Number : JsValue -> num)
      (v : JsValue) (live : outcome bool) :
  Number v = NaN ->
  wordsPerMinute
    (load Number (Returned (mkPartial (Some v) None None None)) live) = NaN.
Proof.
  intros H. unfold load, normalizeSettings, clamp, number_or.
  cbn [wordsPerMinute p_wordsPerMinute]. rewrite H. reflexivity.
Qed.

(** C6.  The code does not keep the bounds.  [normalizeSettings] clamps
    every numeric field, but a stored field that [Number] converts to [NaN]
    comes out of [Math.max] and [Math.min] as [NaN]: loading the stored
    record [{"wordsPerMinute": {}}] leaves [wordsPerMinute = NaN], which is
    outside [20, 240], and with it a duration of [NaN].  A stored number
    outside the bounds, in the same place, is clamped. *)
Theorem load_stores_NaN :
  let stored := mkPartial (Some StoredObject) None None None in
  let st :=
    run_ops Number_of_stored [OpLoad (Returned stored) (Returned false)]
            DEFAULT_SETTINGS in
  let other := mkPartial (Some (StoredNumber (Fin 500))) None None None in
  wordsPerMinute st = NaN
  /\ ~ within 20 240 (wordsPerMinute st)
  /\ ~ clamped st
  /\ fontSize st = FONT_SIZE
  /\ lineHeight st = LINE_HEIGHT
  /\ totalSeconds_of DEFAULT_TEXT st = NaN
  /\ wordsPerMinute
       (run_ops Number_of_stored [OpLoad (Returned other) (Returned false)]
                DEFAULT_SETTINGS) = Fin 240.
Proof.
  cbv zeta.
  assert (E : wordsPerMinute
                (run_ops Number_of_stored
                   [OpLoad (Returned (mkPartial (Some StoredObject)
                                                None None None))
                           (Returned false)]
                   DEFAULT_SETTINGS) = NaN) by (vm_compute; reflexivity).
  split; [exact E|]. split; [rewrite E; intros H; exact H|].
  split; [intros [H _]; rewrite E in H; exact H|].
  repeat match goal with |- _ /\ _ => split end; vm_compute; reflexivity.
Qed.

(* ------------------------------------------------------------------ *)
(** ** Division safety *)

(** C8.  For every script and every settings whose [wordsPerMinute] is a
    number of at least 20, the word count is at least 1 and [totalSeconds]
    is a positive number, so a frame divides its elapsed time by a positive
    number. *)
Theorem division_safety :
  forall (text : jsstring) (st : Settings) (q : Q),
    wordsPerMinute st = Fin q ->
    20 <= q ->
    (exists n : Q, totalWords_of text = Fin n /\ 1 <= n)
    /\ exists T : Q,
        totalSeconds_of text st = Fin T
        /\ 0 < T
        /\ forall e : Q, div (Fin e) (totalSeconds_of text st) = Fin (e / T).
Proof.
  intros text st q Hq Hlo. split; [apply totalWords_of_fin|].
  destruct (totalSeconds_of_fin text st Hq Hlo) as [T [HT Hpos]].
  exists T. repeat split; trivial.
  intros e. rewrite HT. apply div_fin_pos. exact Hpos.
Qed.

(* ------------------------------------------------------------------ *)
(** ** What a frame does to a playing session *)

Lemma frame_result (s : State) (t sp a : Q) :
  clamped (settings s) ->
  isPlaying s = true ->
  startProgressRef s = Fin sp ->
  anchor (Fin t) s = Fin a ->
  let c := sp + ((t + - a) / 1000) / toQ (totalSeconds s) in
  (1 <= c /\ commit s (tick (Fin t) s) = completed_at (Fin a) s)
  \/ (c < 1 /\ commit s (tick (Fin t) s) = advanced_to (Fin a) (Fin c) s).
Proof.
  intros Hc Hp Hsp Ha c.
  rewrite (frame_spec _ _ Hp), tick_spec, (nextProgress_fin t s Hc Hsp Ha), Ha.
  fold c. destruct (ge (Fin c) (Fin 1)) eqn:E.
  - left. split; trivial. apply ge_fin. exact E.
  - right. split; trivial. apply ge_fin_false. exact E.
Qed.

(** What a frame of a playing session leaves, by the candidate it
    computes. *)
Lemma frame_by_candidate (s : State) (time : num) :
  isPlaying s = true ->
  let candidate := nextProgress time s in
  let s' := commit s (tick time s) in
  progress s' = (if ge candidate (Fin 1) then Fin 1 else candidate)
  /\ isPlaying s' = negb (ge candidate (Fin 1))
  /\ mode s' = mode s.
Proof.
  intros Hp candidate s'. subst s' candidate.
  rewrite (frame_spec _ _ Hp), tick_spec.
  destruct (ge (nextProgress time s) (Fin 1)); cbn; rewrite ?Hp; auto.
Qed.

(** A frame of a playing session never shows less than the anchor
    progress, and never more than 1. *)
Lemma frame_bounds (s : State) (t sp a : Q) :
  clamped (settings s) ->
  isPlaying s = true ->
  startProgressRef s = Fin sp ->
  0 <= sp -> sp <= 1 ->
  anchor (Fin t) s = Fin a ->
  a <= t ->
  let s' := commit s (tick (Fin t) s) in
  ge (progress s') (Fin sp) = true /\ within 0 1 (progress s').
Proof.
  intros Hc Hp Hsp H0 H1 Ha Hat s'.
  destruct (totalSeconds_clamped _ Hc) as [_ Hpos].
  assert (Hd : 0 <= t + - a) by lra.
  pose proof (share_nonneg Hd Hpos) as Hs.
  destruct (@frame_result s t sp a Hc Hp Hsp Ha) as [[_ Hr]|[Hlt Hr]];
    fold s' in Hr; rewrite Hr; cbn [progress completed_at advanced_to within].
  - split; [apply ge_fin; exact H1 | split; lra].
  - split; [apply ge_fin; lra | split; lra].
Qed.

Lemma timed_cases (w : World) :
  timed w ->
  startTimeRef (app w) = None
  \/ exists t0 : Q, startTimeRef (app w) = Some (Fin t0) /\ t0 <= now w.
Proof.
  unfold timed.
  destruct (startTimeRef (app w)) as [[| |t0|]|]; try contradiction.
  - intros H0. right. exists t0. auto.
  - intros _. left. reflexivity.
Qed.

(** The anchor a frame uses in a playing state that satisfies the
    invariant is a number that does not lie after the frame. *)
Lemma anchor_before_frame (w : World) (t : Q) :
  timed w -> now w <= t ->
  exists a : Q, anchor (Fin t) (app w) = Fin a /\ a <= t.
Proof.
  intros Ht Hnow. unfold anchor.
  destruct (timed_cases _ Ht) as [Hnone|[t0 [Hsome Ht0]]].
  - rewrite Hnone. exists t. split; [reflexivity | apply Qle_refl].
  - rewrite Hsome. exists t0. split; [reflexivity | lra].
Qed.

(** Two frames of one play interval with nothing in between: the second
    never shows less than the first. *)
Lemma consecutive_frames_monotone (s : State) (t t' sp a : Q) :
  clamped (settings s) ->
  isPlaying s = true ->
  startProgressRef s = Fin sp ->
  anchor (Fin t) s = Fin a ->
  t <= t' ->
  let s1 := commit s (tick (Fin t) s) in
  let s2 := commit s1 (tick (Fin t') s1) in
  isPlaying s1 = true ->
  ge (progress s2) (progress s1) = true.
Proof.
  intros Hc Hp Hsp Ha Htt s1 s2 Hp1.
  destruct (totalSeconds_clamped _ Hc) as [_ Hpos].
  destruct (@frame_result s t sp a Hc Hp Hsp Ha) as [[_ Hr]|[Hlt Hr]];
    fold s1 in Hr.
  - rewrite Hr in Hp1. discriminate Hp1.
  - assert (Hc1 : clamped (settings s1)) by (rewrite Hr; exact Hc).
    assert (Hs1 : startProgressRef s1 = Fin sp) by (rewrite Hr; exact Hsp).
    assert (Ha1 : anchor (Fin t') s1 = Fin a) by (rewrite Hr; reflexivity).
    assert (HT : totalSeconds s1 = totalSeconds s) by (rewrite Hr; reflexivity).
    assert (E1 : progress s1
                 = Fin (sp + ((t + - a) / 1000) / toQ (totalSeconds s)))
      by (rewrite Hr; reflexivity).
    destruct (@frame_result s1 t' sp a Hc1 Hp1 Hs1 Ha1) as [[_ Hr2]|[_ Hr2]];
      fold s2 in Hr2; rewrite Hr2, E1;
      cbn [progress completed_at advanced_to]; apply ge_fin.
    + lra.
    + rewrite HT.
      assert (Hd : t + - a <= t' + - a) by lra.
      pose proof (share_mono Hd Hpos). lra.
Qed.

(* ------------------------------------------------------------------ *)
(** ** Monotonicity *)

(** Apart from frames, stops and edits, no event changes the progress of a
    state that satisfies the invariant. *)
Lemma step_keeps_progress (w : World) (e : Event) :
  Inv w -> enabled e w = true -> is_reset e = false ->
  (forall t : Q, e <> Frame t) ->
  progress (app (step e w)) = progress (app w).
Proof.
  intros HI He Hr Hf. unfold step. cbn [app]. rewrite commit_progress.
  pose proof (inv_input HI) as H3.
  destruct w as [s n]; destruct s as [m ip p c st t0 sp ret rf aot].
  cbn [app mode progress] in *.
  destruct e; try discriminate Hr; try reflexivity.
  - (* ClickStart *)
    cbn. destruct m; cbn; trivial. symmetry. auto.
  - (* ClickPause *)
    cbn. destruct ip; reflexivity.
  - (* ClickSettings *)
    cbn. destruct m; reflexivity.
  - (* KeyDown *)
    cbn. destruct m, space, ip; cbn; trivial; symmetry; auto.
  - (* Frame *)
    exfalso. apply (Hf time). reflexivity.
Qed.

Lemma run_reachable (st : Settings) (es : list Event) :
  forall w w' : World,
    reachable st w -> run es w = Some w' -> reachable st w'.
Proof.
  induction es as [|e rest IH]; intros w w' Hr Hrun; cbn [run] in Hrun.
  - injection Hrun as <-. exact Hr.
  - destruct (enabled e w) eqn:He; [|discriminate].
    apply (IH _ _ (@reach_step st w e Hr He) Hrun).
Qed.

(** C3.  The code does not keep the progress from decreasing.  The default
    script is started and played half way; then the settings that [load]
    delivers arrive with a speed of 120.  The duration changes, so the
    playback effect runs again and drops the anchor time, while the anchor
    progress is still that of the start.  The next frame, which is neither a
    stop nor an edit, lowers the progress from 1/2 to 0. *)
Theorem progress_drops_after_load :
  run [ClickStart; Frame 0; Frame 3000; LoadArrives speed_120]
      (boot DEFAULT_SETTINGS) = Some load_mid_play
  /\ isPlaying (app load_mid_play) = true
  /\ num_eq (progress (app load_mid_play)) (Fin (1 # 2))
  /\ startTimeRef (app load_mid_play) = None
  /\ startProgressRef (app load_mid_play) = Fin 0
  /\ enabled (Frame 3016) load_mid_play = true
  /\ is_reset (Frame 3016) = false
  /\ num_eq (progress (app (step (Frame 3016) load_mid_play))) (Fin 0)
  /\ lt (progress (app (step (Frame 3016) load_mid_play)))
        (progress (app load_mid_play)) = true.
Proof.
  repeat match goal with |- _ /\ _ => split end; vm_compute; reflexivity.
Qed.

(* ------------------------------------------------------------------ *)
(** ** Pausing and resuming *)


(** Starting from [Prompter] mode while paused, committed. *)
Lemma step_resume (s : State) (n : Q) :
  mode s = Prompter -> isPlaying s = false ->
  app (step ClickStart {| app := s; now := n |})
  = set_raf true
      (set_isPlaying true
         (set_startTimeRef None (set_startProgressRef (progress s) s))).
Proof.
  intros Hm Hp. destruct s as [m ip p c st t0 sp ret rf aot].
  cbn in Hm, Hp. subst m ip. commit_tac. reflexivity.
Qed.

(** The first frame after a start from [Prompter] mode: it anchors the
    start time and shows the progress the session was resumed at. *)
Lemma first_frame_after_resume (s : State) (n t p : Q) :
  clamped (settings s) ->
  mode s = Prompter -> isPlaying s = false ->
  progress s = Fin p -> p <= 1 ->
  let s2 := app (step ClickStart {| app := s; now := n |}) in
  let s3 := commit s2 (tick (Fin t) s2) in
  isPlaying s2 = true
  /\ raf s2 = true
  /\ startTimeRef s2 = None
  /\ startProgressRef s2 = Fin p
  /\ progress s2 = Fin p
  /\ startTimeRef s3 = Some (Fin t)
  /\ num_eq (progress s3) (Fin p)
  /\ startProgressRef s3 = (if Qle_bool 1 p then Fin 1 else Fin p)
  /\ isPlaying s3 = negb (Qle_bool 1 p)
  /\ raf s3 = negb (Qle_bool 1 p)
  /\ mode s3 = Prompter
  /\ settings s3 = settings s
  /\ content s3 = content s.
Proof.
  intros Hc Hm Hp Hpf Hle s2 s3. subst s3 s2.
  rewrite (@step_resume s n Hm Hp).
  set (s2 := set_raf true _).
  assert (Hc2 : clamped (settings s2)) by exact Hc.
  assert (Hp2 : isPlaying s2 = true) by reflexivity.
  assert (Hs2 : startProgressRef s2 = Fin p) by exact Hpf.
  assert (Ha2 : anchor (Fin t) s2 = Fin t) by reflexivity.
  repeat (split; [first [reflexivity | exact Hpf]|]).
  destruct (@frame_result s2 t p t Hc2 Hp2 Hs2 Ha2) as [[Hge Hr]|[Hlt Hr]];
    rewrite Hr; rewrite share_zero in *;
    cbn [startTimeRef progress startProgressRef isPlaying raf mode
         settings content completed_at advanced_to num_eq].
  - assert (Hb : Qle_bool 1 p = true) by (apply Qle_bool_iff; lra).
    rewrite Hb. repeat split; try reflexivity; [lra | exact Hm].
  - assert (Hb : Qle_bool 1 p = false).
    { destruct (Qle_bool 1 p) eqn:E; trivial.
      apply Qle_bool_iff in E. lra. }
    rewrite Hb. repeat split; try reflexivity; try assumption.
    rewrite share_zero. lra.
Qed.

Lemma totalSeconds_ext (s s' : State) :
  settings s' = settings s -> content s' = content s ->
  totalSeconds s' = totalSeconds s.
Proof. intros H1 H2. unfold totalSeconds. rewrite H1, H2. reflexivity. Qed.


(* ------------------------------------------------------------------ *)
(** ** Replay after completion *)

(** Without a stop or an edit the component does not come back to [Input]:
    it stays in [Prompter], or in the settings opened from there. *)
Lemma step_stays_out_of_input (w : World) (e : Event) :
  mode (app w) <> Input ->
  (mode (app w) = SettingsMode -> settingsReturnModeRef (app w) <> Input) ->
  enabled e w = true -> is_reset e = false ->
  mode (app (step e w)) <> Input
  /\ (mode (app (step e w)) = SettingsMode ->
      settingsReturnModeRef (app (step e w)) <> Input).
Proof.
  intros Hm Hret He Hr. unfold step. cbn [app].
  rewrite commit_mode, commit_settingsReturnModeRef.
  destruct w as [s n]. cbn [app] in *.
  destruct e; try discriminate Hr; cbn [handler].
  all: try solve [rewrite tick_spec; destruct (ge _ _); cbn; auto].
  all: destruct s as [m ip p c cfg t0 sp ret rf aot]; cbn in *.
  all: try destruct space.
  all: destruct m, ip; cbn in *; try discriminate He; try congruence.
  all: split; try congruence; auto.
Qed.

(** A session that shows progress 1, and whose anchor progress is 1 while
    it plays, stays so under every event that is not a stop or an edit. *)
Lemma step_keeps_completed (w : World) (e : Event) :
  Inv w ->
  progress (app w) = Fin 1 ->
  (isPlaying (app w) = true -> startProgressRef (app w) = Fin 1) ->
  mode (app w) <> Input ->
  enabled e w = true ->
  is_reset e = false ->
  progress (app (step e w)) = Fin 1
  /\ (isPlaying (app (step e w)) = true ->
      startProgressRef (app (step e w)) = Fin 1).
Proof.
  intros HI H1 Hsp Hm He Hr.
  assert (Hkeep : (forall t : Q, e <> Frame t) ->
                  progress (app (step e w)) = Fin 1).
  { intros Hnf. rewrite (@step_keeps_progress w e HI He Hr Hnf). exact H1. }
  destruct e; try discriminate Hr;
    try (split; [apply Hkeep; intros u; discriminate|]).
  13: { cbn in He. apply andb_true_iff in He. destruct He as [Hraf Hnow].
        apply Qle_bool_iff in Hnow.
        assert (Hp : isPlaying (app w) = true)
          by (rewrite <- (inv_raf HI); exact Hraf).
        pose proof (inv_clamped HI) as Hcl.
        destruct (totalSeconds_clamped _ Hcl) as [_ Hpos].
        destruct (anchor_before_frame _ (inv_timed HI Hp) Hnow) as [a [Ha Hat]].
        unfold step. cbn [app handler].
        destruct (@frame_result (app w) time 1 a Hcl Hp (Hsp Hp) Ha)
          as [[_ Hres]|[Hlt _]].
        - rewrite Hres. cbn. split; [reflexivity | discriminate].
        - exfalso.
          assert (Hd : 0 <= time + - a) by lra.
          pose proof (share_nonneg Hd Hpos). lra. }
  all: unfold step; cbn [app];
    rewrite commit_isPlaying, commit_startProgressRef;
    destruct w as [s n]; cbn [app] in *;
    destruct s as [m ip p c cfg t0 sp ret rf aot]; cbn in *.
  all: try destruct space.
  all: destruct m, ip; cbn in *; intros; try discriminate; try congruence;
    auto.
Qed.

(** C9.  From a completed session (mode [Prompter], progress 1, not
    playing) a start sets [isPlaying], and the first frame after it
    completes again at once: progress 1, [isPlaying] cleared.  More
    generally no sequence of events without a stop or an edit of the script
    moves the progress away from 1. *)
Theorem replay_recompletes :
  forall (st : Settings) (w : World),
    clamped st ->
    reachable st w ->
    mode (app w) = Prompter ->
    progress (app w) = Fin 1 ->
    isPlaying (app w) = false ->
    let w1 := step ClickStart w in
    enabled ClickStart w = true
    /\ isPlaying (app w1) = true
    /\ progress (app w1) = Fin 1
    /\ startProgressRef (app w1) = Fin 1
    /\ (forall t : Q,
           now w <= t ->
           let w2 := step (Frame t) w1 in
           enabled (Frame t) w1 = true
           /\ progress (app w2) = Fin 1
           /\ startProgressRef (app w2) = Fin 1
           /\ isPlaying (app w2) = false
           /\ mode (app w2) = Prompter)
    /\ (forall (es : list Event) (w' : World),
           Forall (fun e => is_reset e = false) es ->
           run es w = Some w' ->
           progress (app w') = Fin 1).
Proof.
  intros st w Hc Hr Hm Hone Hp w1.
  pose proof (reachable_Inv Hc Hr) as HI.
  pose proof (inv_clamped HI) as Hcl.
  assert (Hen : enabled ClickStart w = true).
  { unfold enabled. rewrite Hm, Hp. reflexivity. }
  assert (Hle : 1 <= 1) by apply Qle_refl.
  destruct w as [s n]. cbn [app now] in Hm, Hone, Hp, Hcl, Hen.
  assert (E1 : app w1 = app (step ClickStart {| app := s; now := n |}))
    by reflexivity.
  pose proof (@step_resume s n Hm Hp) as E2. rewrite <- E1 in E2.
  split; [exact Hen|].
  split; [rewrite E2; reflexivity|].
  split; [rewrite E2; exact Hone|].
  split; [rewrite E2; exact Hone|].
  split.
  - intros t Hnow w2. cbn [now] in Hnow.
    assert (Hcl1 : clamped (settings (app w1))) by (rewrite E2; exact Hcl).
    assert (Hp1 : isPlaying (app w1) = true) by (rewrite E2; reflexivity).
    assert (Hs1 : startProgressRef (app w1) = Fin 1) by (rewrite E2; exact Hone).
    assert (Ha1 : anchor (Fin t) (app w1) = Fin t) by (rewrite E2; reflexivity).
    assert (Hm1 : mode (app w1) = Prompter) by (rewrite E2; exact Hm).
    assert (Hraf : raf (app w1) = true) by (rewrite E2; reflexivity).
    assert (E3 : app w2 = commit (app w1) (tick (Fin t) (app w1)))
      by reflexivity.
    split.
    { unfold enabled. rewrite Hraf. cbn [andb]. apply Qle_bool_iff. exact Hnow. }
    destruct (@frame_result (app w1) t 1 t Hcl1 Hp1 Hs1 Ha1)
      as [[Hge Hres]|[Hlt Hres]].
    + rewrite E3, Hres. cbn. auto.
    + exfalso. rewrite share_zero in Hlt. lra.
  - intros es. 
    assert (G : forall v : World,
               reachable st v -> progress (app v) = Fin 1 ->
               (isPlaying (app v) = true ->
                startProgressRef (app v) = Fin 1) ->
               mode (app v) <> Input ->
               (mode (app v) = SettingsMode ->
                settingsReturnModeRef (app v) <> Input) ->
               forall w' : World,
                 Forall (fun e => is_reset e = false) es ->
                 run es v = Some w' -> progress (app w') = Fin 1).
    { induction es as [|e rest IH]; intros v Hv H1 Hs1 Hmv Hrv w' Hall Hrun;
        cbn [run] in Hrun.
      - injection Hrun as <-. exact H1.
      - destruct (enabled e v) eqn:He; [|discriminate].
        inversion Hall as [|? ? Hnr Hrest]; subst.
        pose proof (reachable_Inv Hc Hv) as HIv.
        destruct (step_stays_out_of_input v e Hmv Hrv He Hnr) as [Hm' Hr'].
        destruct (@step_keeps_completed v e HIv H1 Hs1 Hmv He Hnr)
          as [K1 K2].
        apply (IH (step e v) (@reach_step st v e Hv He)); trivial. }
    intros w' Hall Hrun.
    apply (G _ Hr Hone); trivial; cbn [app]; try (rewrite Hm; discriminate).
    intros Hplay. rewrite Hp in Hplay. discriminate Hplay.
Qed.

(* ------------------------------------------------------------------ *)
(** ** Resuming re-anchors *)

(** Opening and closing the settings from [Prompter] mode, committed. *)
Lemma step_settings_and_back (s : State) (n : Q) :
  mode s = Prompter -> raf s = isPlaying s ->
  app (step ClickBack (step ClickSettings {| app := s; now := n |}))
  = set_raf false
      (set_isPlaying false (set_settingsReturnModeRef Prompter s)).
Proof.
  intros Hm Hraf. destruct s as [m ip p c st t0 sp ret rf aot].
  cbn in Hm, Hraf. subst m rf.
  destruct ip; commit_tac; rewrite ?same_refl; reflexivity.
Qed.

(** C10.  In [Prompter] mode [handleStart] commits the current progress as
    the anchor progress, drops the anchor time and sets [isPlaying], without
    changing the progress.  [openSettings] clears [isPlaying] and leaves the
    anchor progress as it was; after settings are closed again, a start
    re-anchors at the progress shown, and the first frame still shows it. *)
Theorem resume_reanchors :
  (forall s : State,
      mode s = Prompter ->
      let s' := handleStart s in
      startProgressRef s' = progress s
      /\ startTimeRef s' = None
      /\ isPlaying s' = true
      /\ progress s' = progress s
      /\ mode s' = Prompter)
  /\ (forall s : State,
         mode s = Prompter ->
         let o := openSettings s in
         isPlaying o = false
         /\ startProgressRef o = startProgressRef s
         /\ progress o = progress s
         /\ mode (closeSettings o) = Prompter)
  /\ (forall (st : Settings) (w : World) (t : Q),
         clamped st ->
         reachable st w ->
         mode (app w) = Prompter ->
         now w <= t ->
         let w2 := step ClickBack (step ClickSettings w) in
         let w3 := step ClickStart w2 in
         let w4 := step (Frame t) w3 in
         (isPlaying (app w2) = false
          /\ mode (app w2) = Prompter
          /\ startProgressRef (app w2) = startProgressRef (app w)
          /\ progress (app w2) = progress (app w))
         /\ (isPlaying (app w3) = true
             /\ startTimeRef (app w3) = None
             /\ startProgressRef (app w3) = progress (app w)
             /\ progress (app w3) = progress (app w))
         /\ (enabled (Frame t) w3 = true
             /\ startTimeRef (app w4) = Some (Fin t)
             /\ num_eq (progress (app w4)) (progress (app w)))).
Proof.
  split; [|split].
  - intros s Hm s'. subst s'. unfold handleStart. rewrite Hm. cbn. auto.
  - intros s Hm o. subst o. unfold openSettings, closeSettings. rewrite Hm.
    cbn. auto.
  - intros st w t Hc Hr Hm Hnow w2 w3 w4.
    pose proof (reachable_Inv Hc Hr) as HI.
    pose proof (inv_clamped HI) as Hcl.
    pose proof (inv_raf HI) as Hraf.
    destruct (within_fin _ _ _ (inv_progress HI)) as [Hpf [Hp0 Hp1]].
    destruct w as [s n]. cbn [app now] in Hm, Hnow, Hcl, Hraf, Hpf, Hp0, Hp1.
    cbn [app].
    pose proof (@step_settings_and_back s n Hm Hraf) as E2.
    change (step ClickBack (step ClickSettings {| app := s; now := n |}))
      with w2 in E2.
    assert (N2 : w2 = {| app := app w2; now := n |}) by reflexivity.
    set (s2 := app w2) in *.
    assert (Hm2 : mode s2 = Prompter) by (rewrite E2; exact Hm).
    assert (Hp2 : isPlaying s2 = false) by (rewrite E2; reflexivity).
    assert (Hpf2 : progress s2 = Fin (toQ (progress s)))
      by (rewrite E2; exact Hpf).
    assert (Hcl2 : clamped (settings s2)) by (rewrite E2; exact Hcl).
    destruct (@first_frame_after_resume s2 n t _ Hcl2 Hm2 Hp2 Hpf2 Hp1)
      as [F1 [F2 [F3 [F4 [F5 [F6 [F7 _]]]]]]].
    assert (E3 : app w3 = app (step ClickStart {| app := s2; now := n |})).
    { unfold w3. rewrite N2. reflexivity. }
    assert (E4 : app w4 = commit (app w3) (tick (Fin t) (app w3)))
      by reflexivity.
    rewrite <- E3 in F1, F2, F3, F4, F5, F6, F7.
    rewrite <- E4 in F6, F7.
    split; [|split].
    + repeat split; trivial; rewrite E2; reflexivity.
    + rewrite Hpf. repeat split; trivial.
    + rewrite Hpf. repeat split; trivial.
      unfold enabled. rewrite F2. cbn [andb].
      apply Qle_bool_iff. exact Hnow.
Qed.

(* ------------------------------------------------------------------ *)
(** ** The theorems at sample sessions *)

Lemma run_from_boot (st : Settings) (es : list Event) (w : World) :
  run es (boot st) = Some w -> reachable st w.
Proof. intros H. apply (@run_reachable st es _ _ (reach_boot st) H). Qed.

Lemma half_played_reachable : reachable DEFAULT_SETTINGS half_played.
Proof.
  apply (@run_from_boot _ [ClickStart; Frame 0; Frame 3000]).
  vm_compute. reflexivity.
Qed.

Lemma played_out_reachable : reachable DEFAULT_SETTINGS played_out.
Proof.
  apply (@run_from_boot _ [ClickStart; Frame 0; Frame 7000]).
  vm_compute. reflexivity.
Qed.

(** The default script has six words and lasts six seconds at 60 words per
    minute. *)
Example default_script_duration :
  length (words DEFAULT_TEXT) = 6%nat
  /\ num_eq (totalSeconds initial) (Fin 6).
Proof. split; vm_compute; reflexivity. Qed.

(** Ten words at 60 words per minute: half way after five seconds, done
    after eleven. *)
Example ten_words_scenario :
  let w0 := {| app := set_content ten_words initial; now := 0 |} in
  num_eq (totalSeconds (app w0)) (Fin 10)
  /\ (exists w, run [ClickStart; Frame 0; Frame 5000] w0 = Some w
               /\ num_eq (progress (app w)) (Fin (1 # 2))
               /\ isPlaying (app w) = true)
  /\ (exists w, run [ClickStart; Frame 0; Frame 5000; Frame 11000] w0 = Some w
               /\ progress (app w) = Fin 1
               /\ isPlaying (app w) = false).
Proof.
  split; [vm_compute; reflexivity|].
  split; eexists; (split; [vm_compute; reflexivity|]);
    split; vm_compute; reflexivity.
Qed.

(** Values outside the bounds are clamped when they are loaded. *)
Example load_clamps :
  wordsPerMinute
    (load (fun n : num => n)
          (Returned (mkPartial (Some (Fin 500)) None None None))
          (Returned false)) = Fin 240
  /\ wordsPerMinute
       (load (fun n : num => n)
             (Returned (mkPartial (Some (Fin 5)) None None None))
             Thrown) = Fin 20.
Proof. split; vm_compute; reflexivity. Qed.

(** C1 at the default script: the frame at 7000 ms, seven seconds after
    the anchor, completes the six-second session. *)
Lemma natural_completion_witness :
  let w := step (Frame 0) (step ClickStart (boot DEFAULT_SETTINGS)) in
  progress (commit (app w) (tick (Fin 7000) (app w))) = Fin 1
  /\ mode (app played_out) = Prompter
  /\ isPlaying (app played_out) = false
  /\ enabled (Frame 8000) played_out = false.
Proof.
  intros w. destruct natural_completion as [A B].
  assert (Hp : isPlaying (app w) = true) by (vm_compute; reflexivity).
  assert (Hge : ge (nextProgress (Fin 7000) (app w)) (Fin 1) = true)
    by (vm_compute; reflexivity).
  assert (He : enabled (Frame 7000) w = true) by (vm_compute; reflexivity).
  assert (Hr : reachable DEFAULT_SETTINGS w).
  { apply (@run_from_boot _ [ClickStart; Frame 0]). vm_compute. reflexivity. }
  split.
  - exact (proj1 (A (app w) (Fin 7000) Hp Hge)).
  - destruct (B DEFAULT_SETTINGS w 7000 Hr He Hge) as [_ [_ [H3 [_ [H5 H6]]]]].
    split; [exact H3|]. split; [exact H5|]. exact (H6 8000).
Defined.


(** C5 at the first render. *)
Lemma settings_round_trip_witness :
  mode (closeSettings (openSettings initial)) = Input
  /\ openSettings (openSettings initial) = openSettings initial
  /\ settingsReturnModeRef (app half_played) <> SettingsMode.
Proof.
  destruct settings_round_trip as [A [B C]].
  assert (Hm : mode initial = Input) by reflexivity.
  assert (Hne : Input <> SettingsMode) by discriminate.
  assert (Hs : mode (openSettings initial) = SettingsMode) by reflexivity.
  split; [|split].
  - destruct (A initial Input Hm Hne) as [_ [_ [H _]]]. exact H.
  - exact (proj1 (B (openSettings initial) 0 Hs)).
  - exact (C DEFAULT_SETTINGS half_played half_played_reachable).
Defined.


(** C8 at the default script and settings. *)
Lemma division_safety_witness :
  exists T : Q, totalSeconds_of DEFAULT_TEXT DEFAULT_SETTINGS = Fin T /\ 0 < T.
Proof.
  assert (Hq : wordsPerMinute DEFAULT_SETTINGS = Fin 60) by reflexivity.
  assert (Hlo : 20 <= 60) by (apply Qle_bool_iff; vm_compute; reflexivity).
  destruct (proj2 (division_safety DEFAULT_TEXT DEFAULT_SETTINGS Hq Hlo))
    as [T [H1 [H2 _]]].
  exists T. split; assumption.
Defined.

(** C9 at the played-out session. *)
Lemma replay_recompletes_witness :
  let w2 := step (Frame 9000) (step ClickStart played_out) in
  progress (app w2) = Fin 1
  /\ isPlaying (app w2) = false
  /\ mode (app w2) = Prompter.
Proof.
  intros w2.
  assert (Hc : clamped DEFAULT_SETTINGS)
    by (apply clampedb_sound; vm_compute; reflexivity).
  assert (Hm : mode (app played_out) = Prompter) by (vm_compute; reflexivity).
  assert (H1 : progress (app played_out) = Fin 1) by (vm_compute; reflexivity).
  assert (Hp : isPlaying (app played_out) = false) by (vm_compute; reflexivity).
  assert (Hn : now played_out <= 9000)
    by (apply Qle_bool_iff; vm_compute; reflexivity).
  destruct (replay_recompletes Hc played_out_reachable Hm H1 Hp)
    as [_ [_ [_ [_ [F _]]]]].
  destruct (F 9000 Hn) as [_ [Q1 [_ [Q2 Q3]]]].
  split; [exact Q1|]. split; [exact Q2 | exact Q3].
Defined.

(** C10 at the half-played session, whose anchor progress is still 0 when
    the settings are opened. *)
Lemma resume_reanchors_witness :
  let w2 := step ClickBack (step ClickSettings half_played) in
  let w3 := step ClickStart w2 in
  let w4 := step (Frame 4000) w3 in
  startProgressRef (handleStart (app w2)) = progress (app w2)
  /\ startProgressRef (openSettings (app half_played))
     = startProgressRef (app half_played)
  /\ startProgressRef (app w3) = progress (app half_played)
  /\ num_eq (progress (app w4)) (progress (app half_played)).
Proof.
  intros w2 w3 w4. destruct resume_reanchors as [A [B C]].
  assert (Hc : clamped DEFAULT_SETTINGS)
    by (apply clampedb_sound; vm_compute; reflexivity).
  assert (Hm : mode (app half_played) = Prompter) by (vm_compute; reflexivity).
  assert (Hm2 : mode (app w2) = Prompter) by (vm_compute; reflexivity).
  assert (Hn : now half_played <= 4000)
    by (apply Qle_bool_iff; vm_compute; reflexivity).
  split; [exact (proj1 (A (app w2) Hm2))|].
  split; [exact (proj1 (proj2 (B (app half_played) Hm)))|].
  destruct (C DEFAULT_SETTINGS half_played 4000 Hc half_played_reachable Hm Hn)
    as [_ [[_ [_ [Q1 _]]] [_ [_ Q2]]]].
  split; [exact Q1 | exact Q2].
Defined.

(* ------------------------------------------------------------------ *)
(** ** Words of the script *)

Lemma truthy_snoc (l : jsstring) (c : N) : truthy (l ++ [c]) = true.
Proof. destruct l; reflexivity. Qed.

Lemma truthy_rev (cur : jsstring) :
  truthy (rev cur) = match cur with [] => false | _ => true end.
Proof. destruct cur as [|c cur]; [reflexivity|]. cbn [rev]. apply truthy_snoc. Qed.

Lemma forallb_rev (f : N -> bool) (l : jsstring) :
  forallb f (rev l) = forallb f l.
Proof.
  induction l as [|c l IH]; [reflexivity|].
  cbn [rev forallb]. rewrite forallb_app, IH. cbn. rewrite andb_true_r.
  apply andb_comm.
Qed.

Lemma split_go_nonspace (s cur : jsstring) (sep : bool) :
  forallb nonspace cur = true ->
  Forall (fun piece => forallb nonspace piece = true) (split_go s cur sep).
Proof.
  revert cur sep. induction s as [|c r IH]; intros cur sep Hcur; cbn [split_go].
  - constructor; [|constructor]. rewrite forallb_rev. exact Hcur.
  - destruct (is_space c) eqn:Ec.
    + destruct sep.
      * apply IH. exact Hcur.
      * constructor; [rewrite forallb_rev; exact Hcur | apply IH; reflexivity].
    + apply IH. cbn [forallb]. unfold nonspace at 1. rewrite Ec. exact Hcur.
Qed.

Lemma concat_split_go (s cur : jsstring) (sep : bool) :
  concat (split_go s cur sep) = rev cur ++ filter nonspace s.
Proof.
  revert cur sep. induction s as [|c r IH]; intros cur sep; cbn [split_go filter].
  - cbn. rewrite app_nil_r. reflexivity.
  - unfold nonspace at 1. destruct (is_space c) eqn:Ec; cbn [negb].
    + destruct sep.
      * apply IH.
      * cbn [concat]. rewrite IH. reflexivity.
    + rewrite IH. cbn [rev]. rewrite <- app_assoc. reflexivity.
Qed.

Lemma concat_filter_truthy (l : list jsstring) :
  concat (filter truthy l) = concat l.
Proof.
  induction l as [|x l IH]; [reflexivity|].
  cbn [filter concat]. destruct x; cbn [truthy]; cbn [concat]; rewrite IH;
    reflexivity.
Qed.

Lemma filter_trimStart (s : jsstring) :
  filter nonspace (trimStart s) = filter nonspace s.
Proof.
  induction s as [|c r IH]; [reflexivity|].
  cbn [trimStart]. destruct (is_space c) eqn:Ec; [|reflexivity].
  cbn [filter]. unfold nonspace at 2. rewrite Ec. exact IH.
Qed.

Lemma filter_trim (s : jsstring) :
  filter nonspace (trim s) = filter nonspace s.
Proof.
  unfold trim, trimEnd.
  rewrite filter_rev, filter_trimStart, filter_rev, rev_involutive.
  apply filter_trimStart.
Qed.

Lemma words_pieces (s : jsstring) :
  Forall (fun w => w <> [] /\ forallb nonspace w = true) (words s).
Proof.
  unfold words, split_ws. apply Forall_forall. intros w Hw.
  apply filter_In in Hw. destruct Hw as [Hin Ht].
  split.
  - intros ->. discriminate Ht.
  - pose proof (@split_go_nonspace (trim s) [] false eq_refl) as H.
    rewrite Forall_forall in H. apply H. exact Hin.
Qed.

Lemma words_concat_eq (s : jsstring) :
  concat (words s) = filter nonspace s.
Proof.
  unfold words, split_ws.
  rewrite concat_filter_truthy, concat_split_go. cbn [rev].
  rewrite app_nil_l. apply filter_trim.
Qed.

Lemma filter_nonspace_nil (s : jsstring) :
  filter nonspace s = [] <-> forallb is_space s = true.
Proof.
  induction s as [|c r IH]; cbn [filter forallb]; [tauto|].
  unfold nonspace at 1. destruct (is_space c); cbn [negb andb].
  - exact IH.
  - split; discriminate.
Qed.

(** X1.  Every word of the script is non-empty and holds no whitespace, and
    the words, put together, are the script without its whitespace: nothing
    is lost and nothing is added. *)
Theorem words_partition :
  forall s : jsstring,
    Forall (fun w => w <> [] /\ forallb nonspace w = true) (words s)
    /\ concat (words s) = filter nonspace s.
Proof.
  intros s. split; [apply words_pieces | apply words_concat_eq].
Qed.

(** X2.  A script has no words exactly when it consists of whitespace only
    (the empty script included); the word count used for the duration is
    then 1. *)
Theorem blank_script :
  forall s : jsstring,
    (words s = [] <-> forallb is_space s = true)
    /\ (forallb is_space s = true -> totalWords_of s = Fin 1).
Proof.
  intros s.
  assert (H : words s = [] <-> forallb is_space s = true).
  { rewrite <- filter_nonspace_nil, <- words_concat_eq. split.
    - intros ->. reflexivity.
    - intros Hc. destruct (words s) as [|w ws] eqn:E; [reflexivity|].
      pose proof (words_pieces s) as Hp. rewrite E in Hp.
      inversion Hp as [|? ? [Hne _] _]; subst.
      cbn [concat] in Hc. apply app_eq_nil in Hc. destruct Hc as [Hc _].
      contradiction. }
  split; [exact H|].
  intros Hb. apply H in Hb. unfold totalWords_of. rewrite Hb. reflexivity.
Qed.

Lemma filter_truthy_split_go (s cur : jsstring) (sep : bool) :
  (sep = true -> cur = []) ->
  filter truthy (split_go s cur sep) = kept_go s cur.
Proof.
  revert cur sep. induction s as [|c r IH]; intros cur sep Hsep;
    cbn [split_go kept_go].
  - cbn [filter]. rewrite truthy_rev. destruct cur; reflexivity.
  - destruct (is_space c).
    + destruct sep.
      * rewrite (Hsep eq_refl). apply IH. reflexivity.
      * cbn [filter]. rewrite truthy_rev.
        destruct cur; rewrite IH by reflexivity; reflexivity.
    + apply IH. discriminate.
Qed.

Lemma kept_go_trimStart (s : jsstring) :
  kept_go (trimStart s) [] = kept_go s [].
Proof.
  induction s as [|c r IH]; [reflexivity|].
  cbn [trimStart kept_go]. destruct (is_space c) eqn:Ec; [exact IH|].
  cbn [kept_go]. rewrite Ec. reflexivity.
Qed.

Lemma kept_go_spaces (sp cur : jsstring) :
  forallb is_space sp = true -> kept_go sp cur = kept_go [] cur.
Proof.
  revert cur. induction sp as [|c r IH]; intros cur H; [reflexivity|].
  cbn [forallb] in H. apply andb_true_iff in H. destruct H as [Hc Hr].
  cbn [kept_go]. rewrite Hc. destruct cur; rewrite (IH [] Hr); reflexivity.
Qed.

Lemma kept_go_app_spaces (x sp cur : jsstring) :
  forallb is_space sp = true -> kept_go (x ++ sp) cur = kept_go x cur.
Proof.
  revert cur. induction x as [|c r IH]; intros cur H.
  - apply kept_go_spaces. exact H.
  - rewrite <- app_comm_cons. cbn [kept_go].
    destruct (is_space c); [|apply IH; exact H].
    destruct cur; rewrite (IH [] H); reflexivity.
Qed.

Lemma trimStart_split (l : jsstring) :
  exists sp : jsstring, l = sp ++ trimStart l /\ forallb is_space sp = true.
Proof.
  induction l as [|c r IH].
  - exists []. split; reflexivity.
  - cbn [trimStart]. destruct (is_space c) eqn:Ec.
    + destruct IH as [sp [E Hsp]]. exists (c :: sp). split.
      * rewrite <- app_comm_cons, <- E. reflexivity.
      * cbn [forallb]. rewrite Ec. exact Hsp.
    + exists []. split; reflexivity.
Qed.

Lemma trimEnd_split (s : jsstring) :
  exists sp : jsstring, s = trimEnd s ++ sp /\ forallb is_space sp = true.
Proof.
  destruct (trimStart_split (rev s)) as [sp [E Hsp]].
  exists (rev sp). split.
  - unfold trimEnd. rewrite <- rev_app_distr, <- E, rev_involutive. reflexivity.
  - rewrite forallb_rev. exact Hsp.
Qed.

Lemma kept_go_trimEnd (s cur : jsstring) :
  kept_go (trimEnd s) cur = kept_go s cur.
Proof.
  destruct (trimEnd_split s) as [sp [E Hsp]].
  rewrite E at 2. symmetry. apply kept_go_app_spaces. exact Hsp.
Qed.

Lemma words_kept (s : jsstring) : words s = kept_go s [].
Proof.
  unfold words, split_ws. rewrite filter_truthy_split_go by discriminate.
  unfold trim. rewrite kept_go_trimEnd. apply kept_go_trimStart.
Qed.

Lemma kept_go_separator (a b cur : jsstring) (c : N) :
  is_space c = true ->
  kept_go (a ++ c :: b) cur = kept_go a cur ++ kept_go b [].
Proof.
  intros Hc. revert cur. induction a as [|x a IH]; intros cur.
  - rewrite app_nil_l. cbn [kept_go]. rewrite Hc. destruct cur; reflexivity.
  - rewrite <- app_comm_cons. cbn [kept_go].
    destruct (is_space x); [|apply IH].
    destruct cur; rewrite IH; reflexivity.
Qed.

(** X3.  Whitespace separates: the words of two texts joined by a
    whitespace code unit are the words of the first followed by the words of
    the second, so their counts add up; whitespace around a text does not
    change its words. *)
Theorem words_separator :
  forall (a b : jsstring) (c : N),
    is_space c = true ->
    words (a ++ c :: b) = words a ++ words b
    /\ length (words (a ++ c :: b)) = (length (words a) + length (words b))%nat
    /\ words (c :: a) = words a
    /\ words (a ++ [c]) = words a.
Proof.
  intros a b c Hc.
  assert (H : forall x y, words (x ++ c :: y) = words x ++ words y).
  { intros x y. rewrite !words_kept. apply kept_go_separator. exact Hc. }
  split; [apply H|]. split; [rewrite H; apply length_app|]. split.
  - apply (H [] a).
  - rewrite (H a []). rewrite (words_kept []). cbn [kept_go].
    apply app_nil_r.
Qed.

(** X2 at a script of three whitespace code units. *)
Lemma blank_script_witness :
  words [32; 10; 12288]%N = [] /\ totalWords_of [32; 10; 12288]%N = Fin 1.
Proof.
  assert (H : forallb is_space [32; 10; 12288]%N = true)
    by (vm_compute; reflexivity).
  destruct (blank_script [32; 10; 12288]%N) as [A B].
  split; [exact (proj2 A H) | exact (B H)].
Defined.

(** X3 at the texts ["a b"] and ["  a \n b "], joined by a line feed. *)
Lemma words_separator_witness :
  words (two_words ++ 10%N :: two_words_padded)
  = words two_words ++ words two_words_padded.
Proof.
  assert (H : is_space 10%N = true) by (vm_compute; reflexivity).
  exact (proj1 (words_separator two_words two_words_padded 10%N H)).
Defined.

(* ------------------------------------------------------------------ *)
(** ** More on the settings store *)

Lemma clamp_fin (x lo hi : Q) :
  clamp (Fin x) (Fin lo) (Fin hi)
  = if Qle_bool x lo then (if Qle_bool lo hi then Fin lo else Fin hi)
    else if Qle_bool x hi then Fin x else Fin hi.
Proof.
  unfold clamp. cbn [max ge]. destruct (Qle_bool x lo); reflexivity.
Qed.

Lemma Qle_bool_false (x y : Q) : Qle_bool x y = false <-> y < x.
Proof.
  split; intros H.
  - apply Qnot_le_lt. intros Hle. apply Qle_bool_iff in Hle. congruence.
  - destruct (Qle_bool x y) eqn:E; trivial.
    apply Qle_bool_iff in E. exfalso. apply (Qlt_not_le _ _ H E).
Qed.

Ltac qle_cases :=
  repeat match goal with
         | |- context [Qle_bool ?a ?b] =>
             let E := fresh "E" in
             destruct (Qle_bool a b) eqn:E;
             [apply Qle_bool_iff in E | apply Qle_bool_false in E]
         end.

(** X4.  [clamp] returns a value between the bounds unchanged, the lower
    bound for anything smaller (minus infinity included) and the upper bound
    for anything larger (plus infinity included); [NaN] stays [NaN], and
    clamping twice is clamping once. *)
Theorem clamp_saturates :
  forall lo hi : Q,
    lo <= hi ->
    (forall x : Q, lo <= x -> x <= hi ->
                   num_eq (clamp (Fin x) (Fin lo) (Fin hi)) (Fin x))
    /\ (forall x : Q, x <= lo ->
                      num_eq (clamp (Fin x) (Fin lo) (Fin hi)) (Fin lo))
    /\ (forall x : Q, hi <= x ->
                      num_eq (clamp (Fin x) (Fin lo) (Fin hi)) (Fin hi))
    /\ clamp NegInf (Fin lo) (Fin hi) = Fin lo
    /\ clamp PosInf (Fin lo) (Fin hi) = Fin hi
    /\ clamp NaN (Fin lo) (Fin hi) = NaN
    /\ (forall a : num,
           num_eq (clamp (clamp a (Fin lo) (Fin hi)) (Fin lo) (Fin hi))
                  (clamp a (Fin lo) (Fin hi))).
Proof.
  intros lo hi Hlh.
  assert (Hb : Qle_bool lo hi = true) by (apply Qle_bool_iff; exact Hlh).
  assert (Hneg : clamp NegInf (Fin lo) (Fin hi) = Fin lo).
  { unfold clamp. cbn. rewrite Hb. reflexivity. }
  assert (Hpos : clamp PosInf (Fin lo) (Fin hi) = Fin hi) by reflexivity.
  assert (Hfin : forall x,
             num_eq (clamp (clamp (Fin x) (Fin lo) (Fin hi)) (Fin lo) (Fin hi))
                    (clamp (Fin x) (Fin lo) (Fin hi))).
  { intros x. rewrite (clamp_fin x). rewrite Hb.
    destruct (Qle_bool x lo) eqn:E1.
    - rewrite clamp_fin, Hb. qle_cases; cbn; lra.
    - destruct (Qle_bool x hi) eqn:E2.
      + rewrite clamp_fin, E1, E2. cbn. lra.
      + rewrite clamp_fin, Hb. apply Qle_bool_false in E1, E2.
        qle_cases; cbn; lra. }
  repeat split; trivial.
  - intros x H1 H2. rewrite clamp_fin, Hb. qle_cases; cbn; lra.
  - intros x H1. rewrite clamp_fin, Hb. qle_cases; cbn; lra.
  - intros x H1. rewrite clamp_fin, Hb. qle_cases; cbn; lra.
  - intros [| |x|].
    + exact I.
    + rewrite Hneg. rewrite clamp_fin, Hb. qle_cases; cbn; lra.
    + apply Hfin.
    + rewrite Hpos. rewrite clamp_fin, Hb. qle_cases; cbn; lra.
Qed.

(** X4 at the bounds of [wordsPerMinute]. *)
Lemma clamp_saturates_witness :
  num_eq (clamp (Fin 500) (Fin 20) (Fin 240)) (Fin 240)
  /\ num_eq (clamp (Fin 5) (Fin 20) (Fin 240)) (Fin 20)
  /\ num_eq (clamp (Fin 65) (Fin 20) (Fin 240)) (Fin 65).
Proof.
  assert (H : 20 <= 240) by (apply Qle_bool_iff; vm_compute; reflexivity).
  destruct (clamp_saturates H) as [A [B [C _]]].
  split; [|split].
  - apply C. apply Qle_bool_iff. vm_compute. reflexivity.
  - apply B. apply Qle_bool_iff. vm_compute. reflexivity.
  - apply A; apply Qle_bool_iff; vm_compute; reflexivity.
Defined.

(** X5 at a stored speed that is not a number. *)
Lemma load_passes_NaN_witness :
  wordsPerMinute
    (load Number_of_number
          (Returned (mkPartial (Some NaN) None None None)) Thrown) = NaN.
Proof.
  apply (@load_passes_NaN num Number_of_number NaN Thrown). reflexivity.
Defined.

(** X6.  [load] takes [autoStart] from the live query, whatever was stored,
    and [false] when the query fails; when the stored record cannot be read
    or parsed, or is empty, the numeric settings are the defaults. *)
Theorem load_fallbacks :
  forall (JsValue : Type) (Number : JsValue -> num)
         (parsed : outcome (PartialSettings JsValue)) (live : outcome bool),
    autoStart (load Number parsed live)
    = match live with Returned b => b | Thrown => false end
    /\ load Number Thrown live
       = set_autoStart (match live with Returned b => b | Thrown => false end)
                       DEFAULT_SETTINGS
    /\ load Number (Returned (empty_partial JsValue)) live
       = load Number Thrown live
    /\ (forall (r : PartialSettings JsValue) (stored_flag : option bool),
           load Number
                (Returned (mkPartial (p_wordsPerMinute r) (p_fontSize r)
                                     (p_lineHeight r) stored_flag)) live
           = load Number (Returned r) live).
Proof.
  intros JsValue Number parsed live. repeat split.
Qed.

Lemma clamped_fields (st : Settings) :
  clamped st ->
  exists a b c : Q,
    wordsPerMinute st = Fin a /\ fontSize st = Fin b /\ lineHeight st = Fin c
    /\ (20 <= a /\ a <= 240) /\ (20 <= b /\ b <= 64) /\ (28 <= c /\ c <= 96).
Proof.
  intros [H1 [H2 H3]].
  destruct (within_fin _ _ _ H1) as [E1 B1].
  destruct (within_fin _ _ _ H2) as [E2 B2].
  destruct (within_fin _ _ _ H3) as [E3 B3].
  eauto 10.
Qed.

Lemma clamp_in_range (x lo hi : Q) :
  lo <= x -> x <= hi -> num_eq (clamp (Fin x) (Fin lo) (Fin hi)) (Fin x).
Proof.
  intros H1 H2. rewrite clamp_fin. qle_cases; cbn; lra.
Qed.

(** X7.  Settings inside the bounds survive being persisted and loaded
    again: the next [load] returns the same numbers, with the flag the live
    query reports.  A speed that is not a finite number is written as
    [null], so the next [load] falls back to the default speed. *)
Theorem persist_then_load :
  forall (st : Settings) (live : bool),
    (clamped st ->
     settings_eq
       (load Number_of_number (Returned (persisted st)) (Returned live))
       (set_autoStart live st))
    /\ ((forall q : Q, wordsPerMinute st <> Fin q) ->
        wordsPerMinute
          (load Number_of_number (Returned (persisted st)) (Returned live))
        = WORDS_PER_MINUTE).
Proof.
  intros st live. split.
  - intros Hc.
    destruct (clamped_fields Hc)
      as [a [b [c [Ea [Eb [Ec [[A1 A2] [[B1 B2] [C1 C2]]]]]]]]].
    unfold settings_eq, load, normalizeSettings, persisted, number_or,
      Number_of_number.
    cbn [wordsPerMinute fontSize lineHeight autoStart set_autoStart
         p_wordsPerMinute p_fontSize p_lineHeight p_autoStart to_boolean].
    rewrite Ea, Eb, Ec. cbn [json_number].
    repeat split; try apply clamp_in_range; assumption.
  - intros Hn.
    unfold load, normalizeSettings, persisted, number_or.
    cbn [wordsPerMinute p_wordsPerMinute].
    destruct (wordsPerMinute st) as [| |q|]; cbn [json_number];
      try reflexivity.
    exfalso. apply (Hn q). reflexivity.
Qed.

(** X7 at the defaults, and at a speed of [NaN]. *)
Lemma persist_then_load_witness :
  settings_eq
    (load Number_of_number (Returned (persisted DEFAULT_SETTINGS))
          (Returned true))
    (set_autoStart true DEFAULT_SETTINGS)
  /\ wordsPerMinute
       (load Number_of_number
             (Returned (persisted (mkSettings NaN (Fin 34) (Fin 48) false)))
             (Returned false))
     = WORDS_PER_MINUTE.
Proof.
  split.
  - apply (proj1 (persist_then_load DEFAULT_SETTINGS true)).
    apply clampedb_sound. vm_compute. reflexivity.
  - apply (proj2 (persist_then_load (mkSettings NaN (Fin 34) (Fin 48) false)
                                    false)).
    intros q. simpl. discriminate.
Defined.

(** X8.  Updates of different settings do not interfere: the order of two
    slider updates does not matter, the flag is not touched, and applying an
    update a second time changes nothing more. *)
Theorem updates_compose :
  forall (s : Settings) (a b c : Q) (p : PartialSettings num),
    updateSettings (only_fontSize b) (updateSettings (only_wordsPerMinute a) s)
    = updateSettings (only_wordsPerMinute a) (updateSettings (only_fontSize b) s)
    /\ updateSettings (only_lineHeight c)
         (updateSettings (only_wordsPerMinute a) s)
       = updateSettings (only_wordsPerMinute a)
           (updateSettings (only_lineHeight c) s)
    /\ updateSettings (only_lineHeight c) (updateSettings (only_fontSize b) s)
       = updateSettings (only_fontSize b) (updateSettings (only_lineHeight c) s)
    /\ updateSettings p (updateSettings p s) = updateSettings p s
    /\ autoStart (updateSettings (only_wordsPerMinute a) s) = autoStart s
    /\ fontSize (updateSettings (only_wordsPerMinute a) s) = fontSize s
    /\ lineHeight (updateSettings (only_wordsPerMinute a) s) = lineHeight s
    /\ wordsPerMinute (updateSettings (only_wordsPerMinute a) s) = Fin a.
Proof.
  intros s a b c p. repeat split.
  destruct p as [[x|] [y|] [z|] [f|]]; reflexivity.
Qed.

(** X9.  When the bridge call succeeds, [toggleAutoStart] leaves the flag
    flipped and everything else as it was, and returns normally; with a
    bridge that works, toggling twice restores the settings. *)
Theorem autostart_toggle_succeeds :
  forall (br : Bridge) (st : Settings),
    (if negb (autoStart st) then enable br else disable br) = Returned tt ->
    toggleAutoStart br st st
    = (Returned tt, set_autoStart (negb (autoStart st)) st)
    /\ (let once := snd (toggleAutoStart working_bridge st st) in
        snd (toggleAutoStart working_bridge once once) = st).
Proof.
  intros br st Hok. split.
  - unfold toggleAutoStart, bind, try_catch, toggle_flip, toggle_rollback,
      setSettings, await.
    destruct (autoStart st) eqn:Ha; cbn in Hok |- *; rewrite Hok; reflexivity.
  - destruct st as [w f l [|]]; reflexivity.
Qed.

(** X9 at the default settings. *)
Lemma autostart_toggle_succeeds_witness :
  toggleAutoStart working_bridge DEFAULT_SETTINGS DEFAULT_SETTINGS
  = (Returned tt, set_autoStart true DEFAULT_SETTINGS).
Proof.
  assert (H : (if negb (autoStart DEFAULT_SETTINGS)
               then enable working_bridge else disable working_bridge)
              = Returned tt) by reflexivity.
  exact (proj1 (autostart_toggle_succeeds working_bridge DEFAULT_SETTINGS H)).
Defined.

(** X10.  [restoreDefaults] ends in the default settings and returns
    normally whether the bridge call succeeds or fails; the defaults are
    inside the bounds. *)
Theorem restore_defaults_always :
  forall (br : Bridge) (st : Settings),
    restoreDefaults br st = (Returned tt, DEFAULT_SETTINGS)
    /\ clamped (snd (restoreDefaults br st)).
Proof.
  intros br st.
  assert (H : restoreDefaults br st = (Returned tt, DEFAULT_SETTINGS)).
  { unfold restoreDefaults, bind, try_catch, setSettings, await, ret.
    destruct (disable br) as [[]|]; reflexivity. }
  split; [exact H|]. rewrite H. apply clamped_default.
Qed.

(* ------------------------------------------------------------------ *)
(** ** What holds in every reachable state *)

(** X11.  In every state reachable from settings inside their bounds, the
    progress and the anchor progress are numbers between 0 and 1, the
    settings are inside their bounds, and in [Input] mode the progress is 0
    and nothing is playing. *)
Theorem reachable_ranges :
  forall (st : Settings) (w : World),
    clamped st ->
    reachable st w ->
    within 0 1 (progress (app w))
    /\ within 0 1 (startProgressRef (app w))
    /\ clamped (settings (app w))
    /\ (mode (app w) = Input ->
        progress (app w) = Fin 0 /\ isPlaying (app w) = false).
Proof.
  intros st w Hc Hr.
  pose proof (reachable_Inv Hc Hr) as HI.
  split; [exact (inv_progress HI)|].
  split; [exact (inv_startProgress HI)|].
  split; [exact (inv_clamped HI)|].
  intros Hm. split; [exact (inv_input HI Hm)|].
  destruct (isPlaying (app w)) eqn:E; trivial.
  pose proof (inv_playing HI E) as Hp. congruence.
Qed.

(** X11 at the half-played session. *)
Lemma reachable_ranges_witness :
  within 0 1 (progress (app half_played))
  /\ clamped (settings (app half_played)).
Proof.
  assert (Hc : clamped DEFAULT_SETTINGS)
    by (apply clampedb_sound; vm_compute; reflexivity).
  destruct (reachable_ranges Hc half_played_reachable) as [A [_ [B _]]].
  split; [exact A | exact B].
Defined.

(** X12.  In every reachable state a frame callback is pending exactly when
    the session is playing, which only happens in [Prompter] mode: in
    [Input] and in the settings no frame can fire. *)
Theorem one_tick_chain :
  forall (st : Settings) (w : World),
    reachable st w ->
    raf (app w) = isPlaying (app w)
    /\ (isPlaying (app w) = true -> mode (app w) = Prompter)
    /\ (mode (app w) <> Prompter ->
        forall t : Q, enabled (Frame t) w = false).
Proof.
  intros st w Hr. destruct (reachable_ModeInv Hr) as [H1 H2 H3].
  split; [exact H1|]. split; [exact H2|].
  intros Hm t. unfold enabled.
  destruct (raf (app w)) eqn:E; [|reflexivity].
  exfalso. apply Hm. apply H2. congruence.
Qed.

(** X12 at the half-played session with the settings opened. *)
Lemma one_tick_chain_witness :
  raf (app half_played_in_settings) = false
  /\ enabled (Frame 4000) half_played_in_settings = false.
Proof.
  assert (Hr : reachable DEFAULT_SETTINGS half_played_in_settings).
  { apply (@run_from_boot _ [ClickStart; Frame 0; Frame 3000; ClickSettings]).
    vm_compute. reflexivity. }
  assert (Hm : mode (app half_played_in_settings) <> Prompter)
    by (vm_compute; discriminate).
  destruct (one_tick_chain Hr) as [A [_ C]].
  split; [rewrite A; vm_compute; reflexivity | exact (C Hm 4000)].
Defined.

Lemma commit_same (s : State) : commit s s = s.
Proof.
  unfold commit, deps_changed. rewrite same_refl, eqb_reflx. reflexivity.
Qed.

(** X13.  The space key does what the button on screen does: it starts from
    [Input], pauses a playing session and resumes a paused one; it is
    ignored in the settings, and every other key is ignored everywhere. *)
Theorem space_key_dispatch :
  forall w : World,
    step (KeyDown false) w = w
    /\ (mode (app w) = SettingsMode -> step (KeyDown true) w = w)
    /\ (mode (app w) = Input -> step (KeyDown true) w = step ClickStart w)
    /\ (mode (app w) = Prompter -> isPlaying (app w) = true ->
        step (KeyDown true) w = step ClickPause w)
    /\ (mode (app w) = Prompter -> isPlaying (app w) = false ->
        step (KeyDown true) w = step ClickStart w)
    /\ (mode (app w) = Prompter ->
        isPlaying (app (step (KeyDown true) w)) = negb (isPlaying (app w))).
Proof.
  intros [s n]. unfold step. cbn [app now handler].
  split; [|split; [|split; [|split; [|split]]]].
  - unfold onKey. destruct (mode s); rewrite commit_same; reflexivity.
  - intros Hm. unfold onKey. rewrite Hm, commit_same. reflexivity.
  - intros Hm. unfold onKey. rewrite Hm. reflexivity.
  - intros Hm Hp. unfold onKey. rewrite Hm, Hp. reflexivity.
  - intros Hm Hp. unfold onKey. rewrite Hm, Hp. reflexivity.
  - intros Hm. rewrite commit_isPlaying. unfold onKey. rewrite Hm.
    destruct (isPlaying s) eqn:Hp.
    + unfold handlePause. rewrite Hp. reflexivity.
    + reflexivity.
Qed.

(** X13 at the half-played session: space pauses it. *)
Lemma space_key_dispatch_witness :
  step (KeyDown true) half_played = step ClickPause half_played
  /\ isPlaying (app (step (KeyDown true) half_played)) = false.
Proof.
  assert (Hm : mode (app half_played) = Prompter) by (vm_compute; reflexivity).
  assert (Hp : isPlaying (app half_played) = true) by (vm_compute; reflexivity).
  destruct (space_key_dispatch half_played) as [_ [_ [_ [A [_ B]]]]].
  split; [exact (A Hm Hp)|]. rewrite (B Hm), Hp. reflexivity.
Defined.

Lemma commit_alwaysOnTop (prev next : State) :
  alwaysOnTop (commit prev next) = alwaysOnTop next.
Proof.
  unfold commit, effect_body, effect_cleanup.
  destruct (deps_changed prev next); trivial.
  cbn. destruct (isPlaying next) eqn:E; cbn; congruence.
Qed.

Lemma commit_content (prev next : State) :
  content (commit prev next) = content next.
Proof.
  unfold commit, effect_body, effect_cleanup.
  destruct (deps_changed prev next); trivial.
  cbn. destruct (isPlaying next) eqn:E; cbn; congruence.
Qed.

Lemma step_keeps_pin (w : World) (e : Event) :
  alwaysOnTop (app w) = true -> alwaysOnTop (app (step e w)) = true.
Proof.
  intros H. unfold step. cbn [app]. rewrite commit_alwaysOnTop.
  destruct w as [s n]. cbn [app] in *.
  destruct e; cbn [handler];
    try solve [rewrite tick_spec; destruct (ge _ _); cbn; exact H].
  all: destruct s as [m ip p c cfg t0 sp ret rf aot]; cbn in *.
  all: try destruct space.
  all: destruct m, ip; cbn; trivial.
Qed.

Lemma pinned_step (w : World) (e : Event) :
  (mode (app w) = Prompter -> alwaysOnTop (app w) = true) ->
  (mode (app w) = SettingsMode -> settingsReturnModeRef (app w) = Prompter ->
   alwaysOnTop (app w) = true) ->
  enabled e w = true ->
  (mode (app (step e w)) = Prompter -> alwaysOnTop (app (step e w)) = true)
  /\ (mode (app (step e w)) = SettingsMode ->
      settingsReturnModeRef (app (step e w)) = Prompter ->
      alwaysOnTop (app (step e w)) = true).
Proof.
  intros H1 H2 He. unfold step. cbn [app].
  rewrite commit_mode, commit_alwaysOnTop, commit_settingsReturnModeRef.
  destruct w as [s n]. cbn [app] in *.
  destruct e; cbn [handler];
    try solve [rewrite tick_spec; destruct (ge _ _); cbn; auto].
  all: destruct s as [m ip p c cfg t0 sp ret rf aot]; cbn in *.
  all: try destruct space.
  all: destruct m, ip; cbn in *; try discriminate He;
    split; intros; subst; auto; try discriminate.
Qed.

(** X14.  Entering [Prompter] asks the host window to stay on top, and no
    handler ever takes that back: the request survives every event, a stop
    included, and it has been made in every reachable [Prompter] state. *)
Theorem always_on_top_sticks :
  (forall (w : World) (e : Event),
      alwaysOnTop (app w) = true -> alwaysOnTop (app (step e w)) = true)
  /\ (forall (st : Settings) (w : World),
         reachable st w ->
         mode (app w) = Prompter -> alwaysOnTop (app w) = true)
  /\ (forall (st : Settings) (w : World),
         reachable st w ->
         mode (app w) = Prompter ->
         alwaysOnTop (app (step ClickStop w)) = true
         /\ mode (app (step ClickStop w)) = Input).
Proof.
  assert (P : forall (st : Settings) (w : World),
             reachable st w ->
             (mode (app w) = Prompter -> alwaysOnTop (app w) = true)
             /\ (mode (app w) = SettingsMode ->
                 settingsReturnModeRef (app w) = Prompter ->
                 alwaysOnTop (app w) = true)).
  { intros st w Hr. induction Hr as [|w e Hr [IH1 IH2] He].
    - split; cbn; discriminate.
    - apply pinned_step; assumption. }
  split; [exact step_keeps_pin|]. split.
  - intros st w Hr. exact (proj1 (P st w Hr)).
  - intros st w Hr Hm. split.
    + apply step_keeps_pin. exact (proj1 (P st w Hr) Hm).
    + unfold step. cbn [app handler]. rewrite commit_mode. reflexivity.
Qed.

(** X14 at the half-played session. *)
Lemma always_on_top_sticks_witness :
  alwaysOnTop (app half_played) = true
  /\ alwaysOnTop (app (step ClickStop half_played)) = true.
Proof.
  assert (Hm : mode (app half_played) = Prompter) by (vm_compute; reflexivity).
  destruct always_on_top_sticks as [_ [B C]].
  split.
  - exact (B DEFAULT_SETTINGS half_played half_played_reachable Hm).
  - exact (proj1 (C DEFAULT_SETTINGS half_played half_played_reachable Hm)).
Defined.

(** X15.  Nothing that can happen while the settings are open moves the
    session: the progress, the anchor progress and the script stay as they
    are and nothing starts playing. *)
Theorem settings_freeze_session :
  forall (st : Settings) (w : World) (e : Event),
    reachable st w ->
    mode (app w) = SettingsMode ->
    enabled e w = true ->
    progress (app (step e w)) = progress (app w)
    /\ startProgressRef (app (step e w)) = startProgressRef (app w)
    /\ content (app (step e w)) = content (app w)
    /\ isPlaying (app (step e w)) = false
    /\ raf (app (step e w)) = false.
Proof.
  intros st w e Hr Hm He.
  pose proof (reachable_ModeInv Hr) as HM.
  pose proof (ModeInv_step w e HM He) as HM'.
  destruct HM as [H1 H2 H3]. destruct HM' as [H1' _ _].
  assert (Hp : isPlaying (app w) = false).
  { destruct (isPlaying (app w)) eqn:E; trivial.
    pose proof (H2 eq_refl). congruence. }
  assert (Hraf : raf (app w) = false) by congruence.
  assert (G : progress (app (step e w)) = progress (app w)
              /\ startProgressRef (app (step e w)) = startProgressRef (app w)
              /\ content (app (step e w)) = content (app w)
              /\ isPlaying (app (step e w)) = false).
  { unfold step. cbn [app].
    rewrite commit_progress, commit_startProgressRef, commit_content,
      commit_isPlaying.
    destruct w as [s n]. cbn [app] in *.
    destruct s as [m ip p c s0 t0 sp ret rf aot]. cbn in Hm, Hp, Hraf, He.
    subst m ip rf.
    destruct e; cbn in He; try discriminate He; cbn; auto. }
  destruct G as [G1 [G2 [G3 G4]]]. repeat split; trivial. congruence.
Qed.

(** X15 at the half-played session with the settings opened. *)
Lemma settings_freeze_session_witness :
  progress (app (step (SlideSpeed 120) half_played_in_settings))
  = progress (app half_played_in_settings).
Proof.
  assert (Hr : reachable DEFAULT_SETTINGS half_played_in_settings).
  { apply (@run_from_boot _ [ClickStart; Frame 0; Frame 3000; ClickSettings]).
    vm_compute. reflexivity. }
  assert (Hm : mode (app half_played_in_settings) = SettingsMode)
    by (vm_compute; reflexivity).
  assert (He : enabled (SlideSpeed 120) half_played_in_settings = true)
    by (vm_compute; reflexivity).
  exact (proj1 (@settings_freeze_session DEFAULT_SETTINGS
                  half_played_in_settings (SlideSpeed 120) Hr Hm He)).
Defined.

(** X16.  Pausing and stopping are idempotent, pausing a session that is
    not playing changes nothing, and a stop followed by a start plays from
    the beginning whatever the progress was. *)
Theorem pause_stop_compose :
  forall s : State,
    handlePause (handlePause s) = handlePause s
    /\ handleStop (handleStop s) = handleStop s
    /\ (isPlaying s = false -> handlePause s = s)
    /\ handleStop (handlePause s) = handleStop s
    /\ progress (handleStart (handleStop s)) = Fin 0
    /\ startProgressRef (handleStart (handleStop s)) = Fin 0
    /\ mode (handleStart (handleStop s)) = Prompter
    /\ isPlaying (handleStart (handleStop s)) = true.
Proof.
  intros s. destruct s as [m ip p c st t0 sp ret rf aot].
  unfold handlePause, handleStop, handleStart. cbn.
  destruct ip; cbn; repeat split; try reflexivity; discriminate.
Qed.

(** X16 at the first render, which is not playing. *)
Lemma pause_stop_compose_witness : handlePause initial = initial.
Proof.
  assert (H : isPlaying initial = false) by reflexivity.
  destruct (pause_stop_compose initial) as [_ [_ [A _]]]. exact (A H).
Defined.

(* ------------------------------------------------------------------ *)
(** ** The scroll effect *)

(** X17.  The scroll effect assigns nothing when the element is not
    mounted.  In a reachable state, for an element whose content is at least
    as high as its box, it assigns a position between 0 and the maximal
    scroll: 0 at progress 0 and the maximal scroll at progress 1. *)
Theorem scroll_in_bounds :
  forall (st : Settings) (w : World) (scrollHeight clientHeight : Q),
    clamped st ->
    reachable st w ->
    clientHeight <= scrollHeight ->
    scroll_effect None (app w) = None
    /\ exists y : Q,
        scroll_effect (Some (Fin scrollHeight, Fin clientHeight)) (app w)
        = Some (Fin y)
        /\ 0 <= y
        /\ y <= scrollHeight - clientHeight
        /\ (progress (app w) = Fin 0 -> y == 0)
        /\ (progress (app w) = Fin 1 -> y == scrollHeight - clientHeight).
Proof.
  intros st w sh ch Hc Hr Hle. split; [reflexivity|].
  destruct (within_fin _ _ _ (inv_progress (reachable_Inv Hc Hr)))
    as [E [H0 H1]].
  exists ((sh + - ch) * toQ (progress (app w))).
  unfold scroll_effect. rewrite E. cbn [sub neg add num_mul toQ].
  split; [reflexivity|].
  set (p := toQ (progress (app w))) in *.
  assert (Hm : 0 <= sh + - ch) by lra.
  repeat split.
  - apply Qmult_le_0_compat; assumption.
  - assert (Hp : (sh + - ch) * p <= (sh + - ch) * 1).
    { rewrite (Qmult_comm _ p), (Qmult_comm _ 1).
      apply Qmult_le_compat_r; assumption. }
    lra.
  - intros Hp. injection Hp as Hp. rewrite Hp. ring.
  - intros Hp. injection Hp as Hp. rewrite Hp. ring.
Qed.

(** X17 at the played-out session and an element of 300 px holding 1200 px
    of text. *)
Lemma scroll_in_bounds_witness :
  exists y : Q,
    scroll_effect (Some (Fin 1200, Fin 300)) (app played_out) = Some (Fin y)
    /\ y == 900.
Proof.
  assert (Hc : clamped DEFAULT_SETTINGS)
    by (apply clampedb_sound; vm_compute; reflexivity).
  assert (Hle : 300 <= 1200) by (apply Qle_bool_iff; vm_compute; reflexivity).
  assert (H1 : progress (app played_out) = Fin 1) by (vm_compute; reflexivity).
  destruct (proj2 (scroll_in_bounds Hc played_out_reachable Hle))
    as [y [E [_ [_ [_ F]]]]].
  exists y. split; [exact E|]. rewrite (F H1). reflexivity.
Defined.

(* ------------------------------------------------------------------ *)
(** ** Duration and timing *)

Lemma totalWords_of_max (text : jsstring) :
  exists n : Q,
    totalWords_of text = Fin n
    /\ n == inject_Z (Z.max 1 (Z.of_nat (length (words text))))
    /\ 1 <= n.
Proof.
  unfold totalWords_of, or_one.
  destruct (length (words text)) as [|m] eqn:E.
  - exists 1. cbn. repeat split; try reflexivity. apply Qle_refl.
  - set (k := inject_Z (Z.of_nat (S m))).
    assert (Hk : 1 <= k).
    { unfold k, Qle, inject_Z. cbn [Qnum Qden]. lia. }
    assert (Hz : Qeq_bool k 0 = false).
    { apply Qeq_bool_false_of_pos. lra. }
    rewrite Hz. exists k. repeat split; trivial.
    unfold k. rewrite Z.max_r by lia. reflexivity.
Qed.

(** X18.  The word count used for the duration is the number of words, or
    1 for a blank script.  The duration is a positive number; a higher speed
    never gives a longer duration, and a script with more words never a
    shorter one. *)
Theorem duration_monotone :
  forall (text text' : jsstring) (st st' : Settings) (q q' : Q),
    wordsPerMinute st = Fin q ->
    wordsPerMinute st' = Fin q' ->
    20 <= q ->
    q <= q' ->
    (length (words text) <= length (words text'))%nat ->
    exists n T T' U : Q,
      totalWords_of text = Fin n
      /\ n == inject_Z (Z.max 1 (Z.of_nat (length (words text))))
      /\ totalSeconds_of text st = Fin T
      /\ totalSeconds_of text st' = Fin T'
      /\ totalSeconds_of text' st = Fin U
      /\ 0 < T'
      /\ T' <= T
      /\ T <= U.
Proof.
  intros text text' st st' q q' Hq Hq' Hlo Hle Hlen.
  destruct (totalWords_of_max text) as [n [Hn [Hmax Hn1]]].
  destruct (totalWords_of_max text') as [n' [Hn' [Hmax' _]]].
  assert (Hnn : n <= n').
  { rewrite Hmax, Hmax'. unfold Qle, inject_Z. cbn [Qnum Qden]. lia. }
  assert (H60 : 0 < 60) by reflexivity.
  assert (Hpos : 0 < q / 60) by (apply Qlt_shift_div_l; trivial; lra).
  assert (Hpos' : 0 < q' / 60) by (apply Qlt_shift_div_l; trivial; lra).
  assert (Hqq : q / 60 <= q' / 60).
  { unfold Qdiv. apply Qmult_le_compat_r; [exact Hle | discriminate]. }
  assert (P1 : 0 < n / (q' / 60)).
  { apply Qlt_shift_div_l; [exact Hpos' | lra]. }
  assert (P2 : n / (q' / 60) <= n / (q / 60)).
  { apply Qle_shift_div_l; [exact Hpos|].
    assert (Ha : n / (q' / 60) * (q' / 60) == n) by (field; lra).
    assert (H0 : 0 <= n / (q' / 60)) by lra.
    assert (Hm : n / (q' / 60) * (q / 60) <= n / (q' / 60) * (q' / 60)).
    { rewrite (Qmult_comm _ (q / 60)), (Qmult_comm _ (q' / 60)).
      apply Qmult_le_compat_r; assumption. }
    lra. }
  assert (P3 : n / (q / 60) <= n' / (q / 60)).
  { unfold Qdiv. apply Qmult_le_compat_r; [exact Hnn|].
    apply Qlt_le_weak, Qinv_lt_0_compat. exact Hpos. }
  exists n, (n / (q / 60)), (n / (q' / 60)), (n' / (q / 60)).
  unfold totalSeconds_of, wordsPerSecond_of. rewrite Hn, Hn', Hq, Hq'.
  rewrite (div_fin_pos q H60), (div_fin_pos q' H60).
  rewrite (div_fin_pos n Hpos), (div_fin_pos n Hpos'), (div_fin_pos n' Hpos).
  repeat split; trivial.
Qed.

(** X18 at the default script at 60 and at 120 words per minute, and at the
    ten-word script. *)
Lemma duration_monotone_witness :
  exists T T' U : Q,
    totalSeconds_of DEFAULT_TEXT DEFAULT_SETTINGS = Fin T
    /\ totalSeconds_of DEFAULT_TEXT speed_120 = Fin T'
    /\ totalSeconds_of ten_words DEFAULT_SETTINGS = Fin U
    /\ T' <= T
    /\ T <= U.
Proof.
  assert (H1 : wordsPerMinute DEFAULT_SETTINGS = Fin 60) by reflexivity.
  assert (H2 : wordsPerMinute speed_120 = Fin 120) by reflexivity.
  assert (H3 : 20 <= 60) by (apply Qle_bool_iff; vm_compute; reflexivity).
  assert (H4 : 60 <= 120) by (apply Qle_bool_iff; vm_compute; reflexivity).
  assert (H5 : (length (words DEFAULT_TEXT) <= length (words ten_words))%nat)
    by (apply Nat.leb_le; vm_compute; reflexivity).
  destruct (@duration_monotone DEFAULT_TEXT ten_words DEFAULT_SETTINGS
              speed_120 60 120 H1 H2 H3 H4 H5)
    as [n [T [T' [U [_ [_ [E1 [E2 [E3 [_ [L1 L2]]]]]]]]]]].
  exists T, T', U. auto.
Defined.

(** Starting from [Input] mode, committed. *)
Lemma step_start_input (s : State) (n : Q) :
  mode s = Input -> isPlaying s = false ->
  app (step ClickStart {| app := s; now := n |})
  = set_raf true
      (set_isPlaying true
         (set_startTimeRef None
            (enterPrompter
               (set_startProgressRef (Fin 0) (set_progress (Fin 0) s))))).
Proof.
  intros Hm Hp. destruct s as [m ip p c st t0 sp ret rf aot].
  cbn in Hm, Hp. subst m ip. commit_tac. reflexivity.
Qed.

(** The first frame of a play interval that starts below 1: it anchors the
    clock and leaves everything else in place. *)
Lemma first_frame_anchors (s : State) (t0 p : Q) :
  clamped (settings s) ->
  isPlaying s = true ->
  startTimeRef s = None ->
  startProgressRef s = Fin p ->
  p < 1 ->
  let s1 := commit s (tick (Fin t0) s) in
  isPlaying s1 = true
  /\ raf s1 = true
  /\ startTimeRef s1 = Some (Fin t0)
  /\ startProgressRef s1 = Fin p
  /\ num_eq (progress s1) (Fin p)
  /\ settings s1 = settings s
  /\ content s1 = content s
  /\ mode s1 = mode s.
Proof.
  intros Hc Hp Hnone Hsp Hlt s1.
  assert (Ha : anchor (Fin t0) s = Fin t0).
  { unfold anchor. rewrite Hnone. reflexivity. }
  destruct (@frame_result s t0 p t0 Hc Hp Hsp Ha) as [[Hge _]|[_ Hr]].
  - exfalso. rewrite share_zero in Hge. lra.
  - fold s1 in Hr. rewrite Hr.
    cbn [isPlaying raf startTimeRef startProgressRef progress settings content
         mode advanced_to num_eq].
    repeat split; trivial. rewrite share_zero. lra.
Qed.

Lemma one_le_share (d T : Q) : 0 < T -> (1 <= d / T <-> T <= d).
Proof.
  intros HT. split; intros H.
  - assert (E : d / T * T == d) by (field; lra).
    assert (Hm : 1 * T <= d / T * T).
    { apply Qmult_le_compat_r; [exact H | lra]. }
    lra.
  - apply Qle_shift_div_l; [exact HT | lra].
Qed.

(** X19.  Playing a script from [Input] mode: the start enters [Prompter]
    with anchor progress 0; the first frame shows progress 0 and anchors the
    clock at its timestamp, with the duration of the script and settings at
    the start; the next frame computes its candidate from these anchors and
    shows it, or completes the session when the candidate has reached 1.
    The progress stays between 0 and 1. *)
Theorem play_through :
  forall (st : Settings) (w : World) (t0 t1 : Q),
    clamped st ->
    reachable st w ->
    mode (app w) = Input ->
    now w <= t0 ->
    t0 <= t1 ->
    let w1 := step ClickStart w in
    let w2 := step (Frame t0) w1 in
    let w3 := step (Frame t1) w2 in
    let candidate := nextProgress (Fin t1) (app w2) in
    enabled ClickStart w = true
    /\ enabled (Frame t0) w1 = true
    /\ enabled (Frame t1) w2 = true
    /\ (isPlaying (app w2) = true
        /\ mode (app w2) = Prompter
        /\ num_eq (progress (app w2)) (Fin 0)
        /\ startProgressRef (app w2) = Fin 0
        /\ startTimeRef (app w2) = Some (Fin t0)
        /\ totalSeconds (app w2) = totalSeconds (app w))
    /\ mode (app w3) = Prompter
    /\ progress (app w3) = (if ge candidate (Fin 1) then Fin 1 else candidate)
    /\ isPlaying (app w3) = negb (ge candidate (Fin 1))
    /\ within 0 1 (progress (app w3)).
Proof.
  intros st w t0 t1 Hc Hr Hm Hnow Htt w1 w2 w3 candidate.
  pose proof (reachable_Inv Hc Hr) as HI.
  pose proof (inv_clamped HI) as Hcl.
  assert (Hp : isPlaying (app w) = false).
  { destruct (isPlaying (app w)) eqn:E; trivial.
    pose proof (inv_playing HI E). congruence. }
  destruct w as [s n]. cbn [app now] in Hm, Hnow, Hcl, Hp.
  pose proof (@step_start_input s n Hm Hp) as E1.
  change (step ClickStart {| app := s; now := n |}) with w1 in E1.
  set (s1 := app w1) in *.
  assert (Hc1 : clamped (settings s1)) by (rewrite E1; exact Hcl).
  assert (Hp1 : isPlaying s1 = true) by (rewrite E1; reflexivity).
  assert (Hn1 : startTimeRef s1 = None) by (rewrite E1; reflexivity).
  assert (Hs1 : startProgressRef s1 = Fin 0) by (rewrite E1; reflexivity).
  assert (Hr1 : raf s1 = true) by (rewrite E1; reflexivity).
  assert (Hset1 : settings s1 = settings s) by (rewrite E1; reflexivity).
  assert (Hcon1 : content s1 = content s) by (rewrite E1; reflexivity).
  assert (Hm1 : mode s1 = Prompter) by (rewrite E1; reflexivity).
  assert (H01 : 0 < 1) by reflexivity.
  destruct (@first_frame_anchors s1 t0 0 Hc1 Hp1 Hn1 Hs1 H01)
    as [F1 [F2 [F3 [F4 [F5 [F6 [F7 F8]]]]]]].
  change (commit s1 (tick (Fin t0) s1)) with (app w2)
    in F1, F2, F3, F4, F5, F6, F7, F8.
  assert (Hc2 : clamped (settings (app w2))) by (rewrite F6; exact Hc1).
  assert (Ha2 : anchor (Fin t1) (app w2) = Fin t0).
  { unfold anchor. rewrite F3. reflexivity. }
  assert (Hz : 0 <= 0) by apply Qle_refl.
  assert (Hz1 : 0 <= 1) by discriminate.
  destruct (@frame_by_candidate (app w2) (Fin t1) F1) as [G1 [G2 G3]].
  destruct (@frame_bounds (app w2) t1 0 t0 Hc2 F1 F4 Hz Hz1 Ha2 Htt)
    as [_ G4].
  change (commit (app w2) (tick (Fin t1) (app w2))) with (app w3)
    in G1, G2, G3, G4.
  split.
  { unfold enabled. cbn [app]. rewrite Hm. reflexivity. }
  split.
  { unfold enabled. fold s1. rewrite Hr1. cbn [andb].
    apply Qle_bool_iff. exact Hnow. }
  split.
  { unfold enabled. rewrite F2. cbn [andb]. apply Qle_bool_iff. exact Htt. }
  split.
  { split; [exact F1|]. split; [rewrite F8; exact Hm1|].
    split; [exact F5|]. split; [exact F4|]. split; [exact F3|].
    rewrite (totalSeconds_ext _ _ F6 F7).
    apply totalSeconds_ext; assumption. }
  split; [rewrite G3, F8; exact Hm1|].
  split; [exact G1|]. split; [exact G2 | exact G4].
Qed.

(** X19 at the default script, started at the first render. *)
Lemma play_through_witness :
  let w2 := step (Frame 100) (step ClickStart (boot DEFAULT_SETTINGS)) in
  let w3 := step (Frame 3100) w2 in
  startTimeRef (app w2) = Some (Fin 100)
  /\ mode (app w3) = Prompter
  /\ within 0 1 (progress (app w3)).
Proof.
  intros w2 w3.
  assert (Hc : clamped DEFAULT_SETTINGS)
    by (apply clampedb_sound; vm_compute; reflexivity).
  assert (Hm : mode (app (boot DEFAULT_SETTINGS)) = Input) by reflexivity.
  assert (H0 : now (boot DEFAULT_SETTINGS) <= 100)
    by (apply Qle_bool_iff; vm_compute; reflexivity).
  assert (H1 : 100 <= 3100) by (apply Qle_bool_iff; vm_compute; reflexivity).
  destruct (@play_through DEFAULT_SETTINGS (boot DEFAULT_SETTINGS) 100 3100
              Hc (reach_boot DEFAULT_SETTINGS) Hm H0 H1)
    as [_ [_ [_ [[_ [_ [_ [_ [A _]]]]] [B [_ [_ C]]]]]]].
  split; [exact A|]. split; [exact B | exact C].
Defined.

(** Opening the settings from [Prompter] mode, moving the speed slider and
    closing them, committed. *)
Lemma step_speed_in_settings (s : State) (n v : Q) :
  mode s = Prompter -> raf s = isPlaying s ->
  app (step ClickBack
         (step (SlideSpeed v) (step ClickSettings {| app := s; now := n |})))
  = set_raf false
      (set_isPlaying false
         (set_settingsReturnModeRef Prompter
            (set_settings
               (updateSettings (only_wordsPerMinute v) (settings s)) s))).
Proof.
  intros Hm Hraf. destruct s as [m ip p c st t0 sp ret rf aot].
  cbn in Hm, Hraf. subst m rf.
  destruct ip; commit_tac; rewrite ?same_refl; cbn;
    repeat match goal with
           | |- context [same ?a ?b] => destruct (same a b); cbn
           end; reflexivity.
Qed.

(** X20.  The speed can only be changed with the session paused in the
    settings.  Back in [Prompter] the progress is where it was; after a
    start the first frame still shows it and anchors the clock, and the
    duration in use is the one of the new speed.  The next frame computes
    its candidate from these anchors and shows it, not below the progress
    the session was resumed at, or completes the session when the candidate
    has reached 1. *)
Theorem speed_change_then_resume :
  forall (st : Settings) (w : World) (v t t' : Q),
    clamped st ->
    reachable st w ->
    mode (app w) = Prompter ->
    in_range 20 240 v = true ->
    now w <= t ->
    t <= t' ->
    let wb := step ClickBack (step (SlideSpeed v) (step ClickSettings w)) in
    let w1 := step ClickStart wb in
    let w2 := step (Frame t) w1 in
    let w3 := step (Frame t') w2 in
    let p := toQ (progress (app w)) in
    let candidate := nextProgress (Fin t') (app w2) in
    progress (app wb) = progress (app w)
    /\ isPlaying (app wb) = false
    /\ mode (app wb) = Prompter
    /\ wordsPerMinute (settings (app wb)) = Fin v
    /\ num_eq (progress (app w2)) (progress (app w))
    /\ (p < 1 ->
        isPlaying (app w2) = true
        /\ startProgressRef (app w2) = Fin p
        /\ startTimeRef (app w2) = Some (Fin t)
        /\ totalSeconds (app w2)
           = totalSeconds_of (content (app w))
               (updateSettings (only_wordsPerMinute v) (settings (app w)))
        /\ progress (app w3)
           = (if ge candidate (Fin 1) then Fin 1 else candidate)
        /\ isPlaying (app w3) = negb (ge candidate (Fin 1))
        /\ ge (progress (app w3)) (Fin p) = true
        /\ within 0 1 (progress (app w3))).
Proof.
  intros st w v t t' Hc Hr Hm Hv Hnow Htt wb w1 w2 w3 p candidate.
  pose proof (reachable_Inv Hc Hr) as HI.
  pose proof (inv_clamped HI) as Hcl.
  pose proof (inv_raf HI) as Hraf.
  destruct (within_fin _ _ _ (inv_progress HI)) as [Hpf [Hp0 Hp1]].
  fold p in Hpf, Hp0, Hp1.
  destruct w as [s n]. cbn [app now] in Hm, Hnow, Hcl, Hraf, Hpf, p.
  pose proof (@step_speed_in_settings s n v Hm Hraf) as Eb.
  change (step ClickBack
            (step (SlideSpeed v) (step ClickSettings {| app := s; now := n |})))
    with wb in Eb.
  assert (Nb : wb = {| app := app wb; now := n |}) by reflexivity.
  set (sb := app wb) in *.
  assert (Hclb : clamped (settings sb)).
  { rewrite Eb. cbn [settings set_raf set_isPlaying set_settingsReturnModeRef
                     set_settings].
    destruct Hcl as [_ [Hf Hl]]. split; [|split; assumption].
    apply in_range_within. exact Hv. }
  assert (Hmb : mode sb = Prompter) by (rewrite Eb; exact Hm).
  assert (Hpb : isPlaying sb = false) by (rewrite Eb; reflexivity).
  assert (Hpfb : progress sb = Fin p) by (rewrite Eb; exact Hpf).
  assert (HTb : totalSeconds sb
                = totalSeconds_of (content s)
                    (updateSettings (only_wordsPerMinute v) (settings s)))
    by (rewrite Eb; reflexivity).
  cbn [app]. rewrite Hpf.
  split; [exact Hpfb|]. split; [exact Hpb|]. split; [exact Hmb|].
  split; [rewrite Eb; reflexivity|].
  assert (E1 : app w1 = app (step ClickStart {| app := sb; now := n |})).
  { unfold w1. rewrite Nb. reflexivity. }
  destruct (@first_frame_after_resume sb n t p Hclb Hmb Hpb Hpfb Hp1)
    as [_ [_ [_ [_ [_ [_ [F7 _]]]]]]].
  rewrite <- E1 in F7.
  change (commit (app w1) (tick (Fin t) (app w1))) with (app w2) in F7.
  split; [exact F7|].
  intros Hlt.
  pose proof (@step_resume sb n Hmb Hpb) as E2. rewrite <- E1 in E2.
  set (s1 := app w1) in *.
  assert (Hc1 : clamped (settings s1)) by (rewrite E2; exact Hclb).
  assert (Hp1' : isPlaying s1 = true) by (rewrite E2; reflexivity).
  assert (Hn1 : startTimeRef s1 = None) by (rewrite E2; reflexivity).
  assert (Hs1 : startProgressRef s1 = Fin p) by (rewrite E2; exact Hpfb).
  assert (HT1 : totalSeconds s1 = totalSeconds sb) by (rewrite E2; reflexivity).
  destruct (@first_frame_anchors s1 t p Hc1 Hp1' Hn1 Hs1 Hlt)
    as [A1 [A2 [A3 [A4 [A5 [A6 [A7 A8]]]]]]].
  change (commit s1 (tick (Fin t) s1)) with (app w2)
    in A1, A2, A3, A4, A5, A6, A7, A8.
  assert (Hc2 : clamped (settings (app w2))) by (rewrite A6; exact Hc1).
  assert (Ha2 : anchor (Fin t') (app w2) = Fin t).
  { unfold anchor. rewrite A3. reflexivity. }
  destruct (@frame_by_candidate (app w2) (Fin t') A1) as [G1 [G2 _]].
  destruct (@frame_bounds (app w2) t' p t Hc2 A1 A4 Hp0 Hp1 Ha2 Htt)
    as [G3 G4].
  change (commit (app w2) (tick (Fin t') (app w2))) with (app w3)
    in G1, G2, G3, G4.
  split; [exact A1|]. split; [exact A4|]. split; [exact A3|].
  split.
  { rewrite (totalSeconds_ext _ _ A6 A7), HT1. exact HTb. }
  split; [exact G1|]. split; [exact G2|]. split; [exact G3 | exact G4].
Qed.

(** X20 at the half-played session, resumed at twice the speed. *)
Lemma speed_change_then_resume_witness :
  let wb := step ClickBack
              (step (SlideSpeed 120) (step ClickSettings half_played)) in
  let w2 := step (Frame 4000) (step ClickStart wb) in
  let w3 := step (Frame 5000) w2 in
  progress (app wb) = progress (app half_played)
  /\ totalSeconds (app w2)
     = totalSeconds_of (content (app half_played))
         (updateSettings (only_wordsPerMinute 120)
                         (settings (app half_played)))
  /\ ge (progress (app w3)) (Fin (toQ (progress (app half_played)))) = true.
Proof.
  intros wb w2 w3.
  assert (Hc : clamped DEFAULT_SETTINGS)
    by (apply clampedb_sound; vm_compute; reflexivity).
  assert (Hm : mode (app half_played) = Prompter) by (vm_compute; reflexivity).
  assert (Hv : in_range 20 240 120 = true) by (vm_compute; reflexivity).
  assert (H1 : now half_played <= 4000)
    by (apply Qle_bool_iff; vm_compute; reflexivity).
  assert (H2 : 4000 <= 5000) by (apply Qle_bool_iff; vm_compute; reflexivity).
  destruct (@speed_change_then_resume DEFAULT_SETTINGS half_played 120 4000
              5000 Hc half_played_reachable Hm Hv H1 H2)
    as [A [_ [_ [_ [_ B]]]]].
  split; [exact A|].
  assert (Hlt : toQ (progress (app half_played)) < 1)
    by (apply Qlt_alt; vm_compute; reflexivity).
  destruct (B Hlt) as [_ [_ [_ [B4 [_ [_ [B7 _]]]]]]].
  split; [exact B4 | exact B7].
Defined.

(** X21.  When [load] delivers settings while a session is playing and the
    duration changes with them, the playback effect starts over: the anchor
    time is dropped, and the next frame shows the anchor progress of the
    last start, not the progress reached since.  When the duration does not
    change, the effect is left alone. *)
Theorem load_during_playback :
  forall (s : State) (st' : Settings) (t sp : Q),
    isPlaying s = true ->
    clamped st' ->
    startProgressRef s = Fin sp ->
    sp < 1 ->
    let s1 := load_arrives st' s in
    let s2 := commit s1 (tick (Fin t) s1) in
    progress s1 = progress s
    /\ settings s1 = st'
    /\ (same (totalSeconds s) (totalSeconds_of (content s) st') = false ->
        startTimeRef s1 = None
        /\ raf s1 = true
        /\ startTimeRef s2 = Some (Fin t)
        /\ num_eq (progress s2) (Fin sp))
    /\ (same (totalSeconds s) (totalSeconds_of (content s) st') = true ->
        startTimeRef s1 = startTimeRef s /\ raf s1 = raf s).
Proof.
  intros s st' t sp Hp Hc Hsp Hlt s1 s2.
  assert (Hdeps : deps_changed s (set_settings st' s)
                  = negb (same (totalSeconds s)
                               (totalSeconds_of (content s) st'))).
  { unfold deps_changed. cbn [isPlaying set_settings].
    rewrite eqb_reflx. reflexivity. }
  split; [unfold s1, load_arrives; rewrite commit_progress; reflexivity|].
  split.
  { unfold s1, load_arrives, commit, effect_body, effect_cleanup.
    destruct (deps_changed s (set_settings st' s)); [|reflexivity].
    cbn. rewrite Hp. reflexivity. }
  split.
  - intros Hsame.
    assert (E1 : s1 = set_raf true
                        (set_startTimeRef None
                           (set_raf false (set_settings st' s)))).
    { unfold s1, load_arrives, commit. rewrite Hdeps, Hsame. cbn [negb].
      unfold effect_body, effect_cleanup. cbn [isPlaying set_raf set_settings].
      rewrite Hp. reflexivity. }
    assert (Hc1 : clamped (settings s1)) by (rewrite E1; exact Hc).
    assert (Hp1 : isPlaying s1 = true) by (rewrite E1; exact Hp).
    assert (Hs1 : startProgressRef s1 = Fin sp) by (rewrite E1; exact Hsp).
    assert (Ha1 : anchor (Fin t) s1 = Fin t) by (rewrite E1; reflexivity).
    split; [rewrite E1; reflexivity|]. split; [rewrite E1; reflexivity|].
    destruct (@frame_result s1 t sp t Hc1 Hp1 Hs1 Ha1) as [[Hge Hr]|[_ Hr]].
    + exfalso. rewrite share_zero in Hge. lra.
    + fold s2 in Hr. rewrite Hr.
      cbn [startTimeRef progress advanced_to num_eq].
      split; [reflexivity|]. rewrite share_zero. lra.
  - intros Hsame.
    unfold s1, load_arrives, commit. rewrite Hdeps, Hsame. cbn [negb].
    split; reflexivity.
Qed.

(** X21 at the half-played session, when settings with a speed of 120
    arrive: the frame that follows shows progress 0 again. *)
Lemma load_during_playback_witness :
  let st' := updateSettings (only_wordsPerMinute 120) DEFAULT_SETTINGS in
  let s1 := load_arrives st' (app half_played) in
  num_eq (progress (app half_played)) (Fin (1 # 2))
  /\ num_eq (progress (commit s1 (tick (Fin 3016) s1))) (Fin 0).
Proof.
  intros st' s1.
  assert (Hp : isPlaying (app half_played) = true) by (vm_compute; reflexivity).
  assert (Hc : clamped st') by (apply clampedb_sound; vm_compute; reflexivity).
  assert (Hs : startProgressRef (app half_played) = Fin 0)
    by (vm_compute; reflexivity).
  assert (Hlt : 0 < 1) by reflexivity.
  assert (Hd : same (totalSeconds (app half_played))
                    (totalSeconds_of (content (app half_played)) st') = false)
    by (vm_compute; reflexivity).
  split; [vm_compute; reflexivity|].
  destruct (@load_during_playback (app half_played) st' 3016 0 Hp Hc Hs Hlt)
    as [_ [_ [A _]]].
  destruct (A Hd) as [_ [_ [_ B]]]. exact B.
Defined.

(** X22.  A session whose clock is anchored completes in bounded time: any
    frame that comes at least twice [totalSeconds] after the latest frame
    sets the progress to 1 and ends the session.  (The factor leaves room
    for the rounding of the quotients; at exactly [totalSeconds] a rounded
    candidate can still be below 1.) *)
Theorem completes_in_bounded_time :
  forall (st : Settings) (w : World) (t : Q),
    clamped st ->
    reachable st w ->
    isPlaying (app w) = true ->
    startTimeRef (app w) <> None ->
    now w + 2000 * toQ (totalSeconds (app w)) <= t ->
    enabled (Frame t) w = true
    /\ progress (app (step (Frame t) w)) = Fin 1
    /\ isPlaying (app (step (Frame t) w)) = false
    /\ mode (app (step (Frame t) w)) = Prompter.
Proof.
  intros st w t Hc Hr Hp Hanch Hlate.
  pose proof (reachable_Inv Hc Hr) as HI.
  pose proof (inv_clamped HI) as Hcl.
  pose proof (inv_playing HI Hp) as Hm.
  destruct (totalSeconds_clamped _ Hcl) as [_ HT].
  destruct (within_fin _ _ _ (inv_startProgress HI)) as [Hsf [Hs0 _]].
  destruct (timed_cases _ (inv_timed HI Hp))
    as [Hnone|[t0 [Hsome Ht0]]]; [contradiction|].
  assert (Ha : anchor (Fin t) (app w) = Fin t0).
  { unfold anchor. rewrite Hsome. reflexivity. }
  set (T := toQ (totalSeconds (app w))) in *.
  assert (Hnow : now w <= t).
  { assert (0 <= 2000 * T) by (apply Qmult_le_0_compat; lra). lra. }
  split.
  { unfold enabled. rewrite (inv_raf HI), Hp. cbn [andb].
    apply Qle_bool_iff. exact Hnow. }
  assert (Hd : T <= (t + - t0) / 1000).
  { apply Qle_shift_div_l; [reflexivity|]. lra. }
  unfold step. cbn [app handler].
  destruct (@frame_result (app w) t _ t0 Hcl Hp Hsf Ha) as [[_ Hres]|[Hlt _]].
  - rewrite Hres. cbn. auto.
  - exfalso. fold T in Hlt.
    pose proof (proj2 (one_le_share ((t + - t0) / 1000) HT) Hd) as H1.
    lra.
Qed.

(** X22 at the half-played session: twelve seconds after its latest
    frame. *)
Lemma completes_in_bounded_time_witness :
  progress (app (step (Frame 15000) half_played)) = Fin 1
  /\ isPlaying (app (step (Frame 15000) half_played)) = false.
Proof.
  assert (Hc : clamped DEFAULT_SETTINGS)
    by (apply clampedb_sound; vm_compute; reflexivity).
  assert (Hp : isPlaying (app half_played) = true) by (vm_compute; reflexivity).
  assert (Ha : startTimeRef (app half_played) <> None)
    by (vm_compute; discriminate).
  assert (Hl : now half_played + 2000 * toQ (totalSeconds (app half_played))
               <= 15000) by (apply Qle_bool_iff; vm_compute; reflexivity).
  destruct (@completes_in_bounded_time DEFAULT_SETTINGS half_played 15000
              Hc half_played_reachable Hp Ha Hl) as [_ [A [B _]]].
  split; [exact A | exact B].
Defined.
